(** * picotool: chip models and memory classification (src/model/model.h)

    A shallow embedding of the model hierarchy of [model.h]: the chip
    descriptors, the virtual accessors of the memory map, the classifier
    [get_memory_type], the family resolution [model_from_family], the two
    address-range views and the protected-ROM overlap test.

    Conventions.
    - [uint32_t] values are integers of [Z]; where the C++ arithmetic can
      leave the 32-bit range ([addr + size], [rom_end() - 0x200]) the
      wrap-around is written out with [u32].
    - The class hierarchy is a record of the fields of [model_info] together
      with the dynamic class of the object; a virtual call is a match on that
      class which selects the most derived override.
    - [fail] leaves the function at once: computations that may reach it live
      in the monad [M], which also logs the range tests a classification
      evaluates, in evaluation order.
    - Where two arguments of one call can both fail, the order in which the
      compiler evaluates them is a parameter of the function.
    - [std::shared_ptr<model_info>] is a location of a store, so that object
      identity can be told apart from equality of contents. *)

From Stdlib Require Import ZArith List String Bool Lia.
Import ListNotations.

Open Scope string_scope.
Open Scope list_scope.
Open Scope Z_scope.

(** ** Enumerations *)

Inductive memory_type : Type :=
  | rom
  | flash
  | sram
  | sram_unstriped
  | xip_sram
  | invalid.

Inductive chip_t : Type :=
  | rp2040
  | rp2350
  | unknown.

Inductive chip_revision_t : Type :=
  | rp2040_b0
  | rp2040_b1
  | rp2040_b2
  | rp2350_a2
  | rp2350_a3
  | rp2350_a4
  | unknown_revision.

(** The enumerators of [picoboot_cmd_id] that [model.h] names; the enum is
    declared in [boot/picoboot.h]. *)
Inductive picoboot_cmd_id : Type :=
  | PC_EXCLUSIVE_ACCESS
  | PC_REBOOT
  | PC_FLASH_ERASE
  | PC_READ
  | PC_WRITE
  | PC_EXIT_XIP
  | PC_ENTER_CMD_XIP
  | PC_EXEC
  | PC_VECTORIZE_FLASH
  | PC_REBOOT2
  | PC_GET_INFO
  | PC_OTP_READ
  | PC_OTP_WRITE.

Definition picoboot_cmd_id_eq_dec (a b : picoboot_cmd_id)
  : {a = b} + {a <> b}.
Proof. decide equality. Defined.

(** ** Constants of the headers that [model.h] includes

    The macros of [addresses.h] (memory map), [boot/uf2.h] (family ids) and
    [errors.h] (error codes) are parameters of the development: the
    definitions and theorems are stated for every value of them. *)

Record addresses : Type := {
  ROM_START : Z;
  ROM_END_RP2040 : Z;
  ROM_END_RP2350 : Z;
  FLASH_START : Z;
  FLASH_END_RP2040 : Z;
  FLASH_END_RP2350 : Z;
  XIP_SRAM_START_RP2040 : Z;
  XIP_SRAM_END_RP2040 : Z;
  XIP_SRAM_START_RP2350 : Z;
  XIP_SRAM_END_RP2350 : Z;
  SRAM_START : Z;
  SRAM_END_RP2040 : Z;
  SRAM_END_RP2350 : Z;
  MAIN_RAM_BANKED_START : Z;
  MAIN_RAM_BANKED_END : Z
}.

Record family_ids : Type := {
  RP2040_FAMILY_ID : Z;
  RP2350_ARM_S_FAMILY_ID : Z;
  RP2350_RISCV_FAMILY_ID : Z;
  RP2350_ARM_NS_FAMILY_ID : Z
}.

(** ** 32-bit arithmetic *)

Definition u32 (z : Z) : Z := z mod 2 ^ 32.

Definition is_u32 (z : Z) : Prop := 0 <= z < 2 ^ 32.

(** ** Failing computations and the log of range tests *)

Inductive outcome (A : Type) : Type :=
  | Ok (a : A)
  | Failure (code : Z) (msg : string).

Arguments Ok {A} a.
Arguments Failure {A} code msg.

(** One entry per range test of the classifiers, named after the range. *)
Inductive probe : Type :=
  | probe_banked
  | probe_flash
  | probe_sram
  | probe_xip_sram
  | probe_rom.

Definition M (A : Type) : Type := (list probe * outcome A)%type.

Definition ret {A : Type} (a : A) : M A := ([], Ok a).

Definition bind {A B : Type} (c : M A) (k : A -> M B) : M B :=
  match c with
  | (l, Ok a) => let (l', r) := k a in (l ++ l', r)
  | (l, Failure code msg) => (l, Failure code msg)
  end.

Notation "x <- c ;; k" := (bind c (fun x => k))
  (at level 61, c at next level, right associativity).

(** Modelled from the spec: [fail] of [errors.h] is missing; by the spec a
    query that reaches it "fails with NotPossible", the error carrying the
    code and the description it was given. Nothing after it runs. *)
Definition fail {A : Type} (code : Z) (msg : string) : M A :=
  ([], Failure code msg).

Definition tick (p : probe) : M unit := ([p], Ok tt).

Definition probes {A : Type} (c : M A) : list probe := fst c.

Definition result {A : Type} (c : M A) : outcome A := snd c.

(** [addr >= lo() && addr <= hi()]: [hi] is evaluated only when the first
    comparison holds. *)
Definition range_test (p : probe) (addr : Z) (lo hi : M Z) : M bool :=
  _ <- tick p ;;
  l <- lo ;;
  if l <=? addr then h <- hi ;; ret (addr <=? h) else ret false.

(** ** model_info and its subclasses *)

Inductive model_class : Type :=
  | Cmodel_info
  | Cmodel_unknown
  | Cmodel_rp_generic
  | Cmodel_rp2040
  | Cmodel_rp2350
  | Cmodel_rp2350_arm_s
  | Cmodel_rp2350_arm_ns
  | Cmodel_rp2350_riscv.

(** [_chip_revision] and [_family_id] are not initialised by the constructor
    of [model_info]: [None] until the setter runs. *)
Record model_info : Type := {
  _name : string;
  _chip_revision : option chip_revision_t;
  _rom_end : Z;
  _picoboot_cmds : list picoboot_cmd_id;
  _chip : chip_t;
  _family_id : option Z;
  dyn : model_class
}.

Definition model_class_eq_dec (a b : model_class) : {a = b} + {a <> b}.
Proof. decide equality. Defined.

(** Classes derived from [model_rp]. *)
Definition is_model_rp (c : model_class) : bool :=
  match c with
  | Cmodel_info | Cmodel_unknown => false
  | _ => true
  end.

(** [model_rp2350] and the classes derived from it. *)
Definition is_model_rp2350 (c : model_class) : bool :=
  match c with
  | Cmodel_rp2350 | Cmodel_rp2350_arm_s | Cmodel_rp2350_arm_ns
  | Cmodel_rp2350_riscv => true
  | _ => false
  end.

Definition chip_name (chip : chip_t) : string :=
  match chip with
  | rp2040 => "RP2040"
  | rp2350 => "RP2350"
  | unknown => "RP-series"
  end.

Definition chip (m : model_info) : chip_t := _chip m.
Definition chip_revision (m : model_info) : option chip_revision_t :=
  _chip_revision m.
Definition family_id (m : model_info) : option Z := _family_id m.
Definition name (m : model_info) : string := _name m.
Definition rom_end (m : model_info) : Z := _rom_end m.

Definition set_chip_revision (revision : chip_revision_t) (m : model_info)
  : model_info :=
  {| _name := _name m; _chip_revision := Some revision;
     _rom_end := _rom_end m; _picoboot_cmds := _picoboot_cmds m;
     _chip := _chip m; _family_id := _family_id m; dyn := dyn m |}.

Definition set_family_id (id : Z) (m : model_info) : model_info :=
  {| _name := _name m; _chip_revision := _chip_revision m;
     _rom_end := _rom_end m; _picoboot_cmds := _picoboot_cmds m;
     _chip := _chip m; _family_id := Some id; dyn := dyn m |}.

(** The constructor of [model_info], for an object of dynamic class [c]. *)
Definition mk_model_info (c : model_class) (chip : chip_t) (name : string)
    (rom_end : Z) (picoboot_cmds : list picoboot_cmd_id) : model_info :=
  {| _name := name; _chip_revision := None; _rom_end := rom_end;
     _picoboot_cmds := picoboot_cmds; _chip := chip; _family_id := None;
     dyn := c |}.

Definition model_unknown : model_info :=
  mk_model_info Cmodel_unknown unknown (chip_name unknown) 0x100 [].

Definition model_rp_generic : model_info :=
  mk_model_info Cmodel_rp_generic unknown (chip_name unknown) 0x100 [].

Definition rp2350_cmds : list picoboot_cmd_id :=
  [ PC_EXCLUSIVE_ACCESS; PC_REBOOT; PC_FLASH_ERASE; PC_READ; PC_WRITE;
    PC_EXIT_XIP; PC_ENTER_CMD_XIP; PC_EXEC; PC_REBOOT2; PC_GET_INFO;
    PC_OTP_READ; PC_OTP_WRITE ].

Definition rp2040_cmds : list picoboot_cmd_id :=
  [ PC_EXCLUSIVE_ACCESS; PC_REBOOT; PC_FLASH_ERASE; PC_READ; PC_WRITE;
    PC_EXIT_XIP; PC_ENTER_CMD_XIP; PC_EXEC; PC_VECTORIZE_FLASH ].

(** [explicit model_rp2350(uint32_t rom_end)], for dynamic class [c]. *)
Definition model_rp2350_at (c : model_class) (rom_end : Z) : model_info :=
  mk_model_info c rp2350
    (if 0x8000 <? rom_end then "RP2350(64k)" else "RP2350")
    rom_end rp2350_cmds.

Section Model.

Variable adr : addresses.
Variable fam : family_ids.
Variable ERROR_NOT_POSSIBLE : Z.

Definition model_rp2040 : model_info :=
  set_family_id (RP2040_FAMILY_ID fam)
    (mk_model_info Cmodel_rp2040 rp2040 (chip_name rp2040)
       (ROM_END_RP2040 adr) rp2040_cmds).

Definition model_rp2350 : model_info :=
  model_rp2350_at Cmodel_rp2350 (ROM_END_RP2350 adr).

Definition model_rp2350_arm_s : model_info :=
  set_family_id (RP2350_ARM_S_FAMILY_ID fam)
    (model_rp2350_at Cmodel_rp2350_arm_s (ROM_END_RP2350 adr)).

Definition model_rp2350_arm_ns : model_info :=
  set_family_id (RP2350_ARM_NS_FAMILY_ID fam)
    (model_rp2350_at Cmodel_rp2350_arm_ns (ROM_END_RP2350 adr)).

Definition model_rp2350_riscv : model_info :=
  set_family_id (RP2350_RISCV_FAMILY_ID fam)
    (model_rp2350_at Cmodel_rp2350_riscv (ROM_END_RP2350 adr)).

(** *** Accessors of the memory map *)

Definition rom_start (m : model_info) : Z := ROM_START adr.

Definition flash_start (m : model_info) : M Z :=
  if is_model_rp (dyn m) then ret (FLASH_START adr)
  else fail ERROR_NOT_POSSIBLE "unknown flash start".

Definition flash_end (m : model_info) : M Z :=
  match dyn m with
  | Cmodel_info | Cmodel_unknown =>
      fail ERROR_NOT_POSSIBLE "unknown flash end"
  | Cmodel_rp_generic =>
      ret (Z.max (FLASH_END_RP2040 adr) (FLASH_END_RP2350 adr))
  | Cmodel_rp2040 => ret (FLASH_END_RP2040 adr)
  | _ => ret (FLASH_END_RP2350 adr)
  end.

Definition sram_start (m : model_info) : M Z :=
  if is_model_rp (dyn m) then ret (SRAM_START adr)
  else fail ERROR_NOT_POSSIBLE "unknown sram start".

Definition sram_end (m : model_info) : M Z :=
  match dyn m with
  | Cmodel_info | Cmodel_unknown =>
      fail ERROR_NOT_POSSIBLE "unknown sram end"
  | Cmodel_rp_generic =>
      ret (Z.max (SRAM_END_RP2040 adr) (SRAM_END_RP2350 adr))
  | Cmodel_rp2040 => ret (SRAM_END_RP2040 adr)
  | _ => ret (SRAM_END_RP2350 adr)
  end.

Definition xip_sram_start (m : model_info) : M Z :=
  match dyn m with
  | Cmodel_info | Cmodel_unknown =>
      fail ERROR_NOT_POSSIBLE "unknown xip sram start"
  | Cmodel_rp_generic =>
      ret (Z.min (XIP_SRAM_START_RP2040 adr) (XIP_SRAM_START_RP2350 adr))
  | Cmodel_rp2040 => ret (XIP_SRAM_START_RP2040 adr)
  | _ => ret (XIP_SRAM_START_RP2350 adr)
  end.

Definition xip_sram_end (m : model_info) : M Z :=
  match dyn m with
  | Cmodel_info | Cmodel_unknown =>
      fail ERROR_NOT_POSSIBLE "unknown xip sram end"
  | Cmodel_rp_generic =>
      ret (Z.max (XIP_SRAM_END_RP2040 adr) (XIP_SRAM_END_RP2350 adr))
  | Cmodel_rp2040 => ret (XIP_SRAM_END_RP2040 adr)
  | _ => ret (XIP_SRAM_END_RP2350 adr)
  end.

Definition unreadable_rom_start (m : model_info) : Z :=
  if is_model_rp2350 (dyn m) then u32 (rom_end m - 0x200) else 0xffffffff.

Definition unreadable_rom_end (m : model_info) : Z :=
  if is_model_rp2350 (dyn m) then rom_end m else 0xffffffff.

(** *** get_memory_type *)

Definition model_info_get_memory_type (m : model_info) (addr : Z)
  : M memory_type :=
  b <- range_test probe_rom addr (ret (rom_start m)) (ret (rom_end m)) ;;
  if b then ret rom else ret invalid.

Definition model_rp_get_memory_type (m : model_info) (addr : Z)
  : M memory_type :=
  b <- range_test probe_flash addr (flash_start m) (flash_end m) ;;
  if b then ret flash else
  b <- range_test probe_sram addr (sram_start m) (sram_end m) ;;
  if b then ret sram else
  b <- range_test probe_xip_sram addr (xip_sram_start m) (xip_sram_end m) ;;
  if b then ret xip_sram else
  model_info_get_memory_type m addr.

Definition model_rp2040_get_memory_type (m : model_info) (addr : Z)
  : M memory_type :=
  b <- range_test probe_banked addr (ret (MAIN_RAM_BANKED_START adr))
         (ret (MAIN_RAM_BANKED_END adr)) ;;
  if b then ret sram_unstriped else
  model_rp_get_memory_type m addr.

(** The virtual call [model->get_memory_type(addr)]. *)
Definition get_memory_type (addr : Z) (m : model_info) : M memory_type :=
  match dyn m with
  | Cmodel_info | Cmodel_unknown => model_info_get_memory_type m addr
  | Cmodel_rp2040 => model_rp2040_get_memory_type m addr
  | _ => model_rp_get_memory_type m addr
  end.

(** *** Supported commands

    [std::set<picoboot_cmd_id>] is the list of its elements in iteration
    order; [find] is membership. The out-parameter [failed_device_name] is
    passed in and returned next to the result. *)

Definition supports_picoboot_cmd (m : model_info) (cmd : picoboot_cmd_id)
  : bool :=
  if in_dec picoboot_cmd_id_eq_dec cmd (_picoboot_cmds m) then true
  else false.

(** The overload with the out-parameter. *)
Definition supports_picoboot_cmd_named (m : model_info)
    (cmd : picoboot_cmd_id) (failed_device_name : string) : bool * string :=
  if negb (supports_picoboot_cmd m cmd) then (false, name m)
  else (true, failed_device_name).

Fixpoint supports_picoboot_cmds (m : model_info)
    (cmds : list picoboot_cmd_id) (failed_device_name : string)
  : bool * string :=
  match cmds with
  | [] => (true, failed_device_name)
  | cmd :: rest =>
      let (ok, failed_device_name) :=
        supports_picoboot_cmd_named m cmd failed_device_name in
      if negb ok then (false, failed_device_name)
      else supports_picoboot_cmds m rest failed_device_name
  end.

(** *** Address ranges

    [address_range] and [address_ranges] (a vector of ranges) are declared
    in [addresses.h]; the record keeps the three constructor arguments. *)

Inductive address_range_type : Type :=
  | CONTENTS
  | NO_CONTENTS
  | IGNORE.

Record address_range : Type := {
  range_from : Z;
  range_to : Z;
  range_type : address_range_type
}.

Definition address_ranges : Type := list address_range.

Definition emplace_back (ranges : address_ranges) (from to : Z)
    (type : address_range_type) : address_ranges :=
  ranges ++ [ {| range_from := from; range_to := to; range_type := type |} ].

(** The order in which the arguments of one call are evaluated is not
    fixed by C++: the compiler picks it, call by call. *)
Inductive arg_order : Type :=
  | left_to_right
  | right_to_left.

(** The two accessor arguments [from()] and [to()] of one [emplace_back]
    call, evaluated in the order [o]; the failure of the one evaluated
    first is the failure of the call. *)
Definition eval_args (o : arg_order) (from to : M Z) : M (Z * Z) :=
  match o with
  | left_to_right => f <- from ;; t <- to ;; ret (f, t)
  | right_to_left => t <- to ;; f <- from ;; ret (f, t)
  end.

(** [o1], [o2] and [o3] are the orders of the first three [emplace_back]
    calls; the arguments of the fourth are constants. *)
Definition address_ranges_flash (o1 o2 o3 : arg_order) (m : model_info)
  : M address_ranges :=
  let ranges := [] in
  a <- eval_args o1 (flash_start m) (flash_end m) ;;
  let ranges := emplace_back ranges (fst a) (snd a) CONTENTS in
  a <- eval_args o2 (sram_start m) (sram_end m) ;;
  let ranges := emplace_back ranges (fst a) (snd a) NO_CONTENTS in
  a <- eval_args o3 (xip_sram_start m) (xip_sram_end m) ;;
  let ranges := emplace_back ranges (fst a) (snd a) NO_CONTENTS in
  match chip m with
  | rp2040 =>
      ret (emplace_back ranges (MAIN_RAM_BANKED_START adr)
             (MAIN_RAM_BANKED_END adr) NO_CONTENTS)
  | _ => ret ranges
  end.

(** [o1] and [o2] are the orders of the first two [emplace_back] calls;
    [rom_start()] and [rom_end()] of the third cannot fail. *)
Definition address_ranges_ram (o1 o2 : arg_order) (m : model_info)
  : M address_ranges :=
  let ranges := [] in
  a <- eval_args o1 (sram_start m) (sram_end m) ;;
  let ranges := emplace_back ranges (fst a) (snd a) CONTENTS in
  a <- eval_args o2 (xip_sram_start m) (xip_sram_end m) ;;
  let ranges := emplace_back ranges (fst a) (snd a) CONTENTS in
  ret (emplace_back ranges (rom_start m) (rom_end m) IGNORE).

(** *** contains_unreadable_rom *)

Definition contains_unreadable_rom (addr size : Z) (m : model_info) : bool :=
  ((unreadable_rom_start m <=? addr) && (addr <? unreadable_rom_end m))
  || ((unreadable_rom_start m <? u32 (addr + size))
      && (u32 (addr + size) <=? unreadable_rom_end m))
  || ((addr <? unreadable_rom_start m)
      && (unreadable_rom_end m <? u32 (addr + size))).

(** *** Shared models and model_from_family

    A [model_t] is a shared pointer: null or a location of the heap. The
    statics [models::unknown] and [models::largest] are two pointer
    variables of the store; what they are initialised to is decided outside
    [model.h]. *)

Inductive model_t : Type :=
  | null_model
  | shared (loc : nat).

Record store : Type := {
  heap : list model_info;
  models_unknown : model_t;
  models_largest : model_t
}.

Definition deref (p : model_t) (s : store) : option model_info :=
  match p with
  | null_model => None
  | shared loc => nth_error (heap s) loc
  end.

(** [std::make_shared]: a new object at a location not in use. *)
Definition make_shared (obj : model_info) (s : store) : model_t * store :=
  (shared (List.length (heap s)),
   {| heap := heap s ++ [obj];
      models_unknown := models_unknown s;
      models_largest := models_largest s |}).

Definition model_from_family (family_id : Z) (s : store) : model_t * store :=
  if family_id =? RP2040_FAMILY_ID fam then make_shared model_rp2040 s
  else if (RP2350_ARM_S_FAMILY_ID fam <=? family_id)
          && (family_id <=? RP2350_ARM_NS_FAMILY_ID fam)
       then make_shared model_rp2350 s
  else (models_unknown s, s).

(** A run of calls of [model_from_family], one per family id, threading the
    store; the pointers returned, in call order. *)
Fixpoint resolve_all (family_ids : list Z) (s : store)
  : list model_t * store :=
  match family_ids with
  | [] => ([], s)
  | id :: rest =>
      let (p, s1) := model_from_family id s in
      let (ps, s2) := resolve_all rest s1 in
      (p :: ps, s2)
  end.

End Model.

(** ** Further queries of model_info

    The capability flags, [rom_table_version], [revision_name] and
    [unreadable_rom_data], each with its overrides. *)

Definition supports_partition_table (m : model_info) : bool :=
  is_model_rp2350 (dyn m).

(** Overridden by no class of [model.h]. *)
Definition supports_otp_v2 (m : model_info) : bool := false.

Definition requires_block_loop (m : model_info) : bool :=
  is_model_rp2350 (dyn m).

(** [model_rp_generic] has no override: it runs the base version. *)
Definition rom_table_version (ERROR_NOT_POSSIBLE : Z) (m : model_info)
  : M Z :=
  match dyn m with
  | Cmodel_rp2040 => ret 1
  | Cmodel_rp2350 | Cmodel_rp2350_arm_s | Cmodel_rp2350_arm_ns
  | Cmodel_rp2350_riscv => ret 2
  | _ => fail ERROR_NOT_POSSIBLE "unknown rom table version"
  end.

(** [model_info::revision_name], which reads no field. *)
Definition model_info_revision_name : string := "Unknown".

Definition model_rp2040_revision_name (revision : chip_revision_t)
  : string :=
  match revision with
  | rp2040_b0 => "B0"
  | rp2040_b1 => "B1"
  | rp2040_b2 => "B2"
  | _ => model_info_revision_name
  end.

Definition model_rp2350_revision_name (revision : chip_revision_t)
  : string :=
  match revision with
  | rp2350_a2 => "A2"
  | rp2350_a3 => "A3"
  | rp2350_a4 => "A4"
  | _ => model_info_revision_name
  end.

(** The virtual call [revision_name()]. The overrides switch on
    [chip_revision()]: there is no value ([None]) while [_chip_revision] is
    not set. *)
Definition revision_name (m : model_info) : option string :=
  match dyn m with
  | Cmodel_rp2040 => option_map model_rp2040_revision_name (chip_revision m)
  | Cmodel_rp2350 | Cmodel_rp2350_arm_s | Cmodel_rp2350_arm_ns
  | Cmodel_rp2350_riscv =>
      option_map model_rp2350_revision_name (chip_revision m)
  | _ => Some model_info_revision_name
  end.

(** What [unreadable_rom_data] points to: nothing, or one of the three
    tables of [rp2350_a2_rom_end.h], [rp2350_a3_rom_end.h] and
    [rp2350_a4_rom_end.h]. *)
Inductive rom_data : Type :=
  | nullptr
  | rp2350_a2_rom_end
  | rp2350_a3_rom_end
  | rp2350_a4_rom_end.

Definition model_rp2350_unreadable_rom_data (revision : chip_revision_t)
  : rom_data :=
  match revision with
  | rp2350_a2 => rp2350_a2_rom_end
  | rp2350_a3 => rp2350_a3_rom_end
  | rp2350_a4 => rp2350_a4_rom_end
  | _ => nullptr
  end.

(** The virtual call [unreadable_rom_data()]; the override reads
    [chip_revision()] as [revision_name] does. *)
Definition unreadable_rom_data (m : model_info) : option rom_data :=
  if is_model_rp2350 (dyn m)
  then option_map model_rp2350_unreadable_rom_data (chip_revision m)
  else Some nullptr.

(** The objects that the constructors of the classes derived from
    [model_info] build, with any number of calls of the two setters. *)
Inductive constructed (adr : addresses) (fam : family_ids)
  : model_info -> Prop :=
  | constructed_unknown : constructed adr fam model_unknown
  | constructed_rp_generic : constructed adr fam model_rp_generic
  | constructed_rp2040 : constructed adr fam (model_rp2040 adr fam)
  | constructed_rp2350 (rom_end : Z) :
      constructed adr fam (model_rp2350_at Cmodel_rp2350 rom_end)
  | constructed_rp2350_arm_s :
      constructed adr fam (model_rp2350_arm_s adr fam)
  | constructed_rp2350_arm_ns :
      constructed adr fam (model_rp2350_arm_ns adr fam)
  | constructed_rp2350_riscv :
      constructed adr fam (model_rp2350_riscv adr fam)
  | constructed_set_chip_revision (revision : chip_revision_t)
      (m : model_info) :
      constructed adr fam m ->
      constructed adr fam (set_chip_revision revision m)
  | constructed_set_family_id (id : Z) (m : model_info) :
      constructed adr fam m -> constructed adr fam (set_family_id id m).

(** A family id that [model_from_family] resolves to a new object. *)
Definition known_family (fam : family_ids) (id : Z) : bool :=
  (id =? RP2040_FAMILY_ID fam)
  || ((RP2350_ARM_S_FAMILY_ID fam <=? id)
      && (id <=? RP2350_ARM_NS_FAMILY_ID fam)).

(** The three kinds of the ranges that every class derived from [model_rp]
    declares. *)
Definition declared_kind (k : memory_type) : Prop :=
  k = flash \/ k = sram \/ k = xip_sram.

(** [addr] lies in the inclusive range of [r]. *)
Definition in_address_range (r : address_range) (addr : Z) : Prop :=
  range_from r <= addr <= range_to r.

(** ** Vocabulary of the specification *)

(** First-match classification over an ordered list of inclusive ranges:
    the kind of the first range that contains [addr], [invalid] if none. *)
Fixpoint first_match (rules : list (Z * Z * memory_type)) (addr : Z)
  : memory_type :=
  match rules with
  | [] => invalid
  | (lo, hi, kind) :: rest =>
      if (lo <=? addr) && (addr <=? hi) then kind else first_match rest addr
  end.

(** [p] is tested before [q] in a log of range tests. *)
Definition tested_before (p q : probe) (log : list probe) : Prop :=
  exists l1 l2, log = l1 ++ q :: l2 /\ In p l1.

(** [l1] is an initial segment of [l2]. *)
Definition initial_segment {A : Type} (l1 l2 : list A) : Prop :=
  exists l, l2 = l1 ++ l.

(** The half-open byte ranges [[a, a + n)] and [[lo, hi)] share a byte. *)
Definition ranges_intersect (a n lo hi : Z) : Prop :=
  exists b, (a <= b < a + n) /\ (lo <= b < hi).

(** The four shapes of an overlap of [[a, a + n)] with [[lo, hi)]. *)
Definition fully_inside (a n lo hi : Z) : Prop := lo <= a /\ a + n <= hi.
Definition overlaps_start (a n lo hi : Z) : Prop :=
  a < lo /\ lo < a + n /\ a + n <= hi.
Definition overlaps_end (a n lo hi : Z) : Prop :=
  lo <= a /\ a < hi /\ hi < a + n.
Definition fully_spans (a n lo hi : Z) : Prop := a < lo /\ hi < a + n.

(** ** An instance of the constants

    The memory map and family ids of the RP2040 and RP2350, to evaluate the
    definitions on; the theorems are stated for every instance. *)

Definition rp_addresses : addresses := {|
  ROM_START := 0x00000000;
  ROM_END_RP2040 := 0x00004000;
  ROM_END_RP2350 := 0x00008000;
  FLASH_START := 0x10000000;
  FLASH_END_RP2040 := 0x11000000;
  FLASH_END_RP2350 := 0x12000000;
  XIP_SRAM_START_RP2040 := 0x15000000;
  XIP_SRAM_END_RP2040 := 0x15004000;
  XIP_SRAM_START_RP2350 := 0x13ffc000;
  XIP_SRAM_END_RP2350 := 0x14000000;
  SRAM_START := 0x20000000;
  SRAM_END_RP2040 := 0x20042000;
  SRAM_END_RP2350 := 0x20082000;
  MAIN_RAM_BANKED_START := 0x21000000;
  MAIN_RAM_BANKED_END := 0x21040000
|}.

Definition rp_family_ids : family_ids := {|
  RP2040_FAMILY_ID := 0xe48bff56;
  RP2350_ARM_S_FAMILY_ID := 0xe48bff59;
  RP2350_RISCV_FAMILY_ID := 0xe48bff5a;
  RP2350_ARM_NS_FAMILY_ID := 0xe48bff5b
|}.

Definition rp_error_not_possible : Z := -8.

(** A store in which [models::unknown] and [models::largest] hold a
    [model_unknown] and a [model_rp_generic]. *)
Definition initial_store : store := {|
  heap := [model_unknown; model_rp_generic];
  models_unknown := shared 0;
  models_largest := shared 1
|}.

(** The classification of [addr] on a model whose six range accessors
    succeed: first match over FLASH, SRAM, XIP_SRAM, ROM in this order,
    [invalid] when no range contains [addr]. *)
Definition classifies_in_priority_order (adr : addresses) (E : Z)
    (m : model_info) (addr : Z) : Prop :=
  exists fs fe ss se xs xe,
    flash_start adr E m = ret fs /\ flash_end adr E m = ret fe /\
    sram_start adr E m = ret ss /\ sram_end adr E m = ret se /\
    xip_sram_start adr E m = ret xs /\ xip_sram_end adr E m = ret xe /\
    result (get_memory_type adr E addr m) =
      Ok (first_match [ (fs, fe, flash); (ss, se, sram); (xs, xe, xip_sram);
                        (rom_start adr m, rom_end m, rom) ] addr).

(** The alias range of the older generation, inclusive. *)
Definition in_banked (adr : addresses) (addr : Z) : Prop :=
  MAIN_RAM_BANKED_START adr <= addr <= MAIN_RAM_BANKED_END adr.

(** The order in which the alias test would run were it placed after the
    FLASH, SRAM and XIP_SRAM tests: each of them is in the log before it. *)
Definition alias_tested_after_ranges (log : list probe) : Prop :=
  tested_before probe_flash probe_banked log
  /\ tested_before probe_sram probe_banked log
  /\ tested_before probe_xip_sram probe_banked log.

(** The inclusive range of family ids that resolve to [model_rp2350]. *)
Definition in_rp2350_ids (fam : family_ids) (id : Z) : Prop :=
  RP2350_ARM_S_FAMILY_ID fam <= id <= RP2350_ARM_NS_FAMILY_ID fam.

(** ** Range tests and the monad *)

Lemma range_test_ret (p : probe) (addr lo hi : Z) :
  range_test p addr (ret lo) (ret hi)
  = ([p], Ok ((lo <=? addr) && (addr <=? hi))).
Proof.
  unfold range_test, tick, ret, bind. simpl.
  destruct (lo <=? addr); reflexivity.
Qed.

Lemma andb_range (lo hi addr : Z) :
  (lo <=? addr) && (addr <=? hi) = true <-> lo <= addr <= hi.
Proof. rewrite andb_true_iff, !Z.leb_le. tauto. Qed.

Lemma andb_range_false (lo hi addr : Z) :
  (lo <=? addr) && (addr <=? hi) = false <-> ~ (lo <= addr <= hi).
Proof.
  rewrite <- andb_range. destruct ((lo <=? addr) && (addr <=? hi)).
  - split; [discriminate | intros H; exfalso; apply H; reflexivity].
  - split; [intros _ H; discriminate | reflexivity].
Qed.

(** Turns boolean range tests among the hypotheses into inequalities. *)
Ltac reflect_ranges :=
  repeat match goal with
  | H : (_ <=? _) && (_ <=? _) = true |- _ => apply andb_range in H
  | H : (_ <=? _) && (_ <=? _) = false |- _ => apply andb_range_false in H
  end.

Section Classification.

Variable adr : addresses.
Variable E : Z.

(** Every class derived from [model_rp] overrides the six accessors. *)
Lemma model_rp_bounds (m : model_info) :
  is_model_rp (dyn m) = true ->
  exists fs fe ss se xs xe,
    flash_start adr E m = ret fs /\ flash_end adr E m = ret fe /\
    sram_start adr E m = ret ss /\ sram_end adr E m = ret se /\
    xip_sram_start adr E m = ret xs /\ xip_sram_end adr E m = ret xe.
Proof.
  unfold flash_start, flash_end, sram_start, sram_end, xip_sram_start,
    xip_sram_end.
  destruct (dyn m); simpl; try discriminate; intros _;
    do 6 eexists; repeat split; reflexivity.
Qed.

Lemma model_info_get_memory_type_eq (m : model_info) (addr : Z) :
  model_info_get_memory_type adr m addr
  = ([probe_rom],
     Ok (if (rom_start adr m <=? addr) && (addr <=? rom_end m)
         then rom else invalid)).
Proof.
  unfold model_info_get_memory_type. rewrite range_test_ret.
  unfold bind, ret.
  destruct ((rom_start adr m <=? addr) && (addr <=? rom_end m)); reflexivity.
Qed.

(** [model_rp::get_memory_type]: the value and the tests it evaluates. *)
Lemma model_rp_get_memory_type_eq (m : model_info) (addr : Z)
    (fs fe ss se xs xe : Z) :
  flash_start adr E m = ret fs -> flash_end adr E m = ret fe ->
  sram_start adr E m = ret ss -> sram_end adr E m = ret se ->
  xip_sram_start adr E m = ret xs -> xip_sram_end adr E m = ret xe ->
  result (model_rp_get_memory_type adr E m addr)
  = Ok (first_match [ (fs, fe, flash); (ss, se, sram); (xs, xe, xip_sram);
                      (rom_start adr m, rom_end m, rom) ] addr)
  /\ initial_segment (probes (model_rp_get_memory_type adr E m addr))
       [probe_flash; probe_sram; probe_xip_sram; probe_rom].
Proof.
  intros Hfs Hfe Hss Hse Hxs Hxe.
  unfold model_rp_get_memory_type.
  rewrite Hfs, Hfe, Hss, Hse, Hxs, Hxe, !range_test_ret,
    model_info_get_memory_type_eq.
  unfold initial_segment, result, probes, bind, ret. simpl.
  destruct ((fs <=? addr) && (addr <=? fe)); simpl;
    [split; [reflexivity | eexists; reflexivity] |].
  destruct ((ss <=? addr) && (addr <=? se)); simpl;
    [split; [reflexivity | eexists; reflexivity] |].
  destruct ((xs <=? addr) && (addr <=? xe)); simpl;
    [split; [reflexivity | eexists; reflexivity] |].
  split; [reflexivity | exists []; reflexivity].
Qed.

(** [model_rp2040::get_memory_type]: the alias test comes first. *)
Lemma model_rp2040_get_memory_type_eq (m : model_info) (addr : Z) :
  model_rp2040_get_memory_type adr E m addr
  = if (MAIN_RAM_BANKED_START adr <=? addr)
       && (addr <=? MAIN_RAM_BANKED_END adr)
    then ([probe_banked], Ok sram_unstriped)
    else (probe_banked :: probes (model_rp_get_memory_type adr E m addr),
          result (model_rp_get_memory_type adr E m addr)).
Proof.
  unfold model_rp2040_get_memory_type. rewrite range_test_ret.
  unfold bind, ret, probes, result.
  destruct ((MAIN_RAM_BANKED_START adr <=? addr)
            && (addr <=? MAIN_RAM_BANKED_END adr)); [reflexivity |].
  destruct (model_rp_get_memory_type adr E m addr); reflexivity.
Qed.

Lemma get_memory_type_in_banked (m : model_info) (addr : Z) :
  dyn m = Cmodel_rp2040 -> in_banked adr addr ->
  get_memory_type adr E addr m = ([probe_banked], Ok sram_unstriped).
Proof.
  intros Hd Hb. unfold get_memory_type. rewrite Hd.
  rewrite model_rp2040_get_memory_type_eq.
  apply andb_range in Hb. rewrite Hb. reflexivity.
Qed.

Lemma get_memory_type_not_banked (m : model_info) (addr : Z) :
  is_model_rp (dyn m) = true ->
  (dyn m = Cmodel_rp2040 -> ~ in_banked adr addr) ->
  result (get_memory_type adr E addr m)
  = result (model_rp_get_memory_type adr E m addr).
Proof.
  intros Hrp Hb. unfold get_memory_type.
  destruct (dyn m) eqn:Hd; try discriminate; try reflexivity.
  rewrite model_rp2040_get_memory_type_eq.
  specialize (Hb eq_refl). apply andb_range_false in Hb.
  unfold in_banked in Hb. rewrite Hb. reflexivity.
Qed.

Lemma get_memory_type_probes_not_rp2040 (m : model_info) (addr : Z) :
  is_model_rp (dyn m) = true -> dyn m <> Cmodel_rp2040 ->
  probes (get_memory_type adr E addr m)
  = probes (model_rp_get_memory_type adr E m addr).
Proof.
  intros Hrp Hd. unfold get_memory_type.
  destruct (dyn m); try discriminate; try reflexivity. congruence.
Qed.

(** What a first match over the four ranges returns, by cases. *)
Lemma first_match_four (fs fe ss se xs xe rs re addr : Z) :
  let k := first_match [ (fs, fe, flash); (ss, se, sram);
                         (xs, xe, xip_sram); (rs, re, rom) ] addr in
  (fs <= addr <= fe -> k = flash)
  /\ (ss <= addr <= se -> ~ fs <= addr <= fe -> k = sram)
  /\ (xs <= addr <= xe -> ~ fs <= addr <= fe -> ~ ss <= addr <= se ->
      k = xip_sram)
  /\ (k = flash -> fs <= addr <= fe)
  /\ (k = sram -> ss <= addr <= se)
  /\ (k = xip_sram -> xs <= addr <= xe).
Proof.
  simpl.
  destruct ((fs <=? addr) && (addr <=? fe)) eqn:Hf;
  destruct ((ss <=? addr) && (addr <=? se)) eqn:Hs;
  destruct ((xs <=? addr) && (addr <=? xe)) eqn:Hx;
  destruct ((rs <=? addr) && (addr <=? re)) eqn:Hr;
  reflect_ranges; repeat split; intros; try discriminate; tauto.
Qed.

Lemma banked_cases (m : model_info) (addr : Z) :
  (dyn m = Cmodel_rp2040 /\ in_banked adr addr)
  \/ (dyn m = Cmodel_rp2040 -> ~ in_banked adr addr).
Proof.
  unfold in_banked.
  destruct (model_class_eq_dec (dyn m) Cmodel_rp2040) as [Hd | Hd];
    [| right; intros; contradiction].
  destruct (Z_le_dec (MAIN_RAM_BANKED_START adr) addr);
    [destruct (Z_le_dec addr (MAIN_RAM_BANKED_END adr)) |];
    [left; split; [assumption | lia] | right; intros _; lia ..].
Qed.

Lemma not_tested_before_head (p q : probe) (l : list probe) :
  ~ In q l -> ~ tested_before p q (q :: l).
Proof.
  intros Hq (l1 & l2 & Heq & Hin).
  destruct l1 as [| x l1]; [contradiction |].
  simpl in Heq. injection Heq as _ Hl.
  apply Hq. rewrite Hl. apply in_or_app. right. left. reflexivity.
Qed.

(** C1 (amended). On a class derived from [model_rp], [get_memory_type]
    returns the kind of the first of the ranges FLASH, SRAM, XIP_SRAM, ROM
    (inclusive on both ends) that contains the address, and [invalid] when
    none does, for every address except, on [model_rp2040], those of the
    alias range, which classify as [sram_unstriped]; when the class is not
    [model_rp2040] the tests are evaluated in that order. An address of a
    declared range that no earlier range contains gets the kind of the
    range; a kind is returned only inside its range, so not one below its
    start nor one above its end. On [model_info] and [model_unknown] the
    result is [rom] inside [[rom_start, rom_end]] and [invalid] outside. *)
Theorem get_memory_type_priority (m : model_info) :
  (is_model_rp (dyn m) = true ->
     (forall addr,
        (dyn m = Cmodel_rp2040 -> ~ in_banked adr addr) ->
        classifies_in_priority_order adr E m addr)
     /\ (dyn m <> Cmodel_rp2040 ->
         forall addr,
           initial_segment (probes (get_memory_type adr E addr m))
             [probe_flash; probe_sram; probe_xip_sram; probe_rom])
     /\ (forall fs fe ss se xs xe,
           flash_start adr E m = ret fs -> flash_end adr E m = ret fe ->
           sram_start adr E m = ret ss -> sram_end adr E m = ret se ->
           xip_sram_start adr E m = ret xs ->
           xip_sram_end adr E m = ret xe ->
           let r := fun addr => result (get_memory_type adr E addr m) in
           (forall addr,
              (dyn m = Cmodel_rp2040 -> ~ in_banked adr addr) ->
              (fs <= addr <= fe -> r addr = Ok flash)
              /\ (ss <= addr <= se -> ~ fs <= addr <= fe -> r addr = Ok sram)
              /\ (xs <= addr <= xe -> ~ fs <= addr <= fe ->
                  ~ ss <= addr <= se -> r addr = Ok xip_sram))
           /\ (forall addr,
                 (r addr = Ok flash -> fs <= addr <= fe)
                 /\ (r addr = Ok sram -> ss <= addr <= se)
                 /\ (r addr = Ok xip_sram -> xs <= addr <= xe))
           /\ r (fs - 1) <> Ok flash /\ r (fe + 1) <> Ok flash
           /\ r (ss - 1) <> Ok sram /\ r (se + 1) <> Ok sram
           /\ r (xs - 1) <> Ok xip_sram /\ r (xe + 1) <> Ok xip_sram)
     /\ (dyn m = Cmodel_rp2040 ->
         forall addr,
           in_banked adr addr ->
           result (get_memory_type adr E addr m) = Ok sram_unstriped))
  /\ (is_model_rp (dyn m) = false ->
      forall addr,
        get_memory_type adr E addr m
        = ([probe_rom],
           Ok (if (rom_start adr m <=? addr) && (addr <=? rom_end m)
               then rom else invalid))).
Proof.
  split.
  - intros Hrp.
    assert (Honly : forall fs fe ss se xs xe,
      flash_start adr E m = ret fs -> flash_end adr E m = ret fe ->
      sram_start adr E m = ret ss -> sram_end adr E m = ret se ->
      xip_sram_start adr E m = ret xs -> xip_sram_end adr E m = ret xe ->
      forall addr,
        (result (get_memory_type adr E addr m) = Ok flash ->
         fs <= addr <= fe)
        /\ (result (get_memory_type adr E addr m) = Ok sram ->
            ss <= addr <= se)
        /\ (result (get_memory_type adr E addr m) = Ok xip_sram ->
            xs <= addr <= xe)).
    { intros fs fe ss se xs xe Hfs Hfe Hss Hse Hxs Hxe addr.
      destruct (banked_cases m addr) as [[Hd Hb] | Hb].
      { rewrite (get_memory_type_in_banked m addr Hd Hb).
        unfold result; simpl. repeat split; discriminate. }
      rewrite get_memory_type_not_banked by assumption.
      destruct (model_rp_get_memory_type_eq m addr _ _ _ _ _ _
                  Hfs Hfe Hss Hse Hxs Hxe) as [-> _].
      pose proof (first_match_four fs fe ss se xs xe (rom_start adr m)
                    (rom_end m) addr) as Hk; cbv zeta in Hk.
      destruct Hk as (_ & _ & _ & Hf & Hs & Hx).
      split; [| split]; intros [= Heq]; auto. }
    split; [| split; [| split]].
    + intros addr Hb.
      destruct (model_rp_bounds m Hrp)
        as (fs & fe & ss & se & xs & xe & Hfs & Hfe & Hss & Hse & Hxs & Hxe).
      exists fs, fe, ss, se, xs, xe. repeat (split; [assumption |]).
      rewrite get_memory_type_not_banked by assumption.
      apply model_rp_get_memory_type_eq; assumption.
    + intros Hd addr.
      destruct (model_rp_bounds m Hrp)
        as (fs & fe & ss & se & xs & xe & Hfs & Hfe & Hss & Hse & Hxs & Hxe).
      rewrite get_memory_type_probes_not_rp2040 by assumption.
      eapply model_rp_get_memory_type_eq; eassumption.
    + intros fs fe ss se xs xe Hfs Hfe Hss Hse Hxs Hxe r.
      specialize (Honly fs fe ss se xs xe Hfs Hfe Hss Hse Hxs Hxe).
      split; [| split; [exact Honly |]].
      * intros addr Hb. subst r. cbv beta.
        rewrite get_memory_type_not_banked by assumption.
        destruct (model_rp_get_memory_type_eq m addr _ _ _ _ _ _
                    Hfs Hfe Hss Hse Hxs Hxe) as [-> _].
        pose proof (first_match_four fs fe ss se xs xe (rom_start adr m)
                      (rom_end m) addr) as Hk; cbv zeta in Hk.
        destruct Hk as (Hf & Hs & Hx & _).
        split; [| split]; intros; f_equal; auto.
      * subst r. cbv beta.
        repeat match goal with |- _ /\ _ => split end;
          intros Heq; apply Honly in Heq; lia.
    + intros Hd addr Hb.
      rewrite (get_memory_type_in_banked m addr Hd Hb). reflexivity.
  - intros Hrp addr. unfold get_memory_type.
    destruct (dyn m); try discriminate;
      apply model_info_get_memory_type_eq.
Qed.

(** C5 (amended). On [model_rp2040] the alias test is the first test of
    [get_memory_type], ahead of the FLASH, SRAM and XIP_SRAM tests and of the
    ROM fallback: every address of the alias range classifies as
    [sram_unstriped] whatever the other ranges are, and no other range is
    then tested; every other address is classified by FLASH, SRAM, XIP_SRAM
    and ROM in this order. *)
Theorem rp2040_alias_tested_first (m : model_info) (addr : Z) :
  dyn m = Cmodel_rp2040 ->
  (in_banked adr addr ->
   get_memory_type adr E addr m = ([probe_banked], Ok sram_unstriped))
  /\ (exists rest,
        probes (get_memory_type adr E addr m) = probe_banked :: rest
        /\ initial_segment rest
             [probe_flash; probe_sram; probe_xip_sram; probe_rom])
  /\ result (get_memory_type adr E addr m)
     = Ok (first_match
             [ (MAIN_RAM_BANKED_START adr, MAIN_RAM_BANKED_END adr,
                sram_unstriped);
               (FLASH_START adr, FLASH_END_RP2040 adr, flash);
               (SRAM_START adr, SRAM_END_RP2040 adr, sram);
               (XIP_SRAM_START_RP2040 adr, XIP_SRAM_END_RP2040 adr,
                xip_sram);
               (rom_start adr m, rom_end m, rom) ] addr).
Proof.
  intros Hd.
  destruct (model_rp_get_memory_type_eq m addr
              (FLASH_START adr) (FLASH_END_RP2040 adr)
              (SRAM_START adr) (SRAM_END_RP2040 adr)
              (XIP_SRAM_START_RP2040 adr) (XIP_SRAM_END_RP2040 adr))
    as [Hres Hlog];
    try (unfold flash_start, flash_end, sram_start, sram_end,
           xip_sram_start, xip_sram_end; rewrite Hd; reflexivity).
  split; [apply get_memory_type_in_banked; assumption |].
  unfold get_memory_type. rewrite Hd, model_rp2040_get_memory_type_eq.
  cbn [first_match].
  destruct ((MAIN_RAM_BANKED_START adr <=? addr)
            && (addr <=? MAIN_RAM_BANKED_END adr)).
  - split; [| reflexivity].
    exists []. split; [reflexivity |]. eexists; reflexivity.
  - split; [| exact Hres].
    eexists. split; [reflexivity | exact Hlog].
Qed.

End Classification.

(** ** The protected tail of the ROM *)

Lemma u32_small (z : Z) : 0 <= z < 2 ^ 32 -> u32 z = z.
Proof. intros H. unfold u32. apply Z.mod_small. exact H. Qed.

Lemma u32_range (z : Z) : 0 <= u32 z <= 0xffffffff.
Proof.
  unfold u32. pose proof (Z.mod_pos_bound z (2 ^ 32) eq_refl) as H.
  change (2 ^ 32) with 4294967296 in *. lia.
Qed.

Lemma u32_spec (z : Z) :
  exists q, u32 z = z - 4294967296 * q /\ 0 <= u32 z < 4294967296.
Proof.
  exists (z / 4294967296). unfold u32. change (2 ^ 32) with 4294967296.
  pose proof (Z.div_mod z 4294967296) as Hdm.
  pose proof (Z.mod_pos_bound z 4294967296) as Hb. lia.
Qed.

(** Replaces every 32-bit wrap by a variable with its defining equation. *)
Ltac u32_name z :=
  let q := fresh "q" in
  let v := fresh "v" in
  let Hq := fresh "Hq" in
  let Hr := fresh "Hr" in
  let Hv := fresh "Hv" in
  destruct (u32_spec z) as (q & Hq & Hr);
  remember (u32 z) as v eqn:Hv; clear Hv.

Ltac u32_elim :=
  repeat match goal with
  | |- context [u32 ?z] => u32_name z
  | H : context [u32 ?z] |- _ => u32_name z
  end.

(** Booleans of [contains_unreadable_rom] as propositions. *)
Lemma contains_unreadable_rom_iff (addr size : Z) (m : model_info) :
  contains_unreadable_rom addr size m = true <->
  (unreadable_rom_start m <= addr /\ addr < unreadable_rom_end m)
  \/ (unreadable_rom_start m < u32 (addr + size)
      /\ u32 (addr + size) <= unreadable_rom_end m)
  \/ (addr < unreadable_rom_start m
      /\ unreadable_rom_end m < u32 (addr + size)).
Proof.
  unfold contains_unreadable_rom.
  rewrite !orb_true_iff, !andb_true_iff, !Z.leb_le, !Z.ltb_lt. tauto.
Qed.

(** A protected range that is in order is empty only as the sentinel. *)
Lemma unreadable_rom_in_order (m : model_info) :
  unreadable_rom_start m <= unreadable_rom_end m ->
  unreadable_rom_start m < unreadable_rom_end m
  \/ (unreadable_rom_start m = 0xffffffff
      /\ unreadable_rom_end m = 0xffffffff).
Proof.
  unfold unreadable_rom_start, unreadable_rom_end.
  destruct (is_model_rp2350 (dyn m)); [| right; split; reflexivity].
  intros H. left.
  u32_elim. lia.
Qed.

(** C2 (amended). For a model whose protected range is in order
    ([unreadable_rom_start <= unreadable_rom_end]) and 32-bit [addr] and
    [size] with [size > 0] and [addr + size] inside the 32-bit range,
    [contains_unreadable_rom] is true exactly when [[addr, addr + size)]
    and [[unreadable_rom_start, unreadable_rom_end)] share a byte, that is
    exactly when the range is fully inside the protected range, overlaps its
    start, overlaps its end, or fully spans it. *)
Theorem contains_unreadable_rom_intersects (m : model_info)
    (addr size : Z) :
  is_u32 addr -> is_u32 size -> 0 < size -> addr + size < 2 ^ 32 ->
  unreadable_rom_start m <= unreadable_rom_end m ->
  let lo := unreadable_rom_start m in
  let hi := unreadable_rom_end m in
  (contains_unreadable_rom addr size m = true <->
   ranges_intersect addr size lo hi)
  /\ (ranges_intersect addr size lo hi <->
      fully_inside addr size lo hi \/ overlaps_start addr size lo hi
      \/ overlaps_end addr size lo hi \/ fully_spans addr size lo hi).
Proof.
  intros Ha Hs Hpos Hsum Hord lo hi.
  apply unreadable_rom_in_order in Hord. fold lo hi in Hord.
  unfold is_u32 in *.
  rewrite contains_unreadable_rom_iff, u32_small by lia. fold lo hi.
  unfold ranges_intersect, fully_inside, overlaps_start, overlaps_end,
    fully_spans.
  change (2 ^ 32) with 4294967296 in *.
  split; split.
  - intros H. exists (Z.max addr lo). lia.
  - intros (b & Hb1 & Hb2). lia.
  - intros (b & Hb1 & Hb2). lia.
  - intros H. exists (Z.max addr lo). lia.
Qed.

(** C4. On [model_rp2350] and the classes derived from it, with a ROM of at
    least 512 bytes, the protected range is the last 512 bytes of the ROM,
    and [contains_unreadable_rom] is true for 50 bytes at [rom_end - 300],
    false for 50 bytes at [rom_end - 600] and true for the byte at
    [rom_end - 512]. *)
Theorem rp2350_unreadable_rom_tail (m : model_info) :
  is_model_rp2350 (dyn m) = true ->
  0x200 <= rom_end m < 2 ^ 32 ->
  unreadable_rom_start m = rom_end m - 0x200
  /\ unreadable_rom_end m = rom_end m
  /\ contains_unreadable_rom (u32 (rom_end m - 300)) 50 m = true
  /\ contains_unreadable_rom (u32 (rom_end m - 600)) 50 m = false
  /\ contains_unreadable_rom (u32 (rom_end m - 512)) 1 m = true.
Proof.
  intros Hc Hr.
  assert (Hs : unreadable_rom_start m = rom_end m - 0x200).
  { unfold unreadable_rom_start. rewrite Hc. apply u32_small.
    change (2 ^ 32) with 4294967296 in *. lia. }
  assert (He : unreadable_rom_end m = rom_end m).
  { unfold unreadable_rom_end. rewrite Hc. reflexivity. }
  split; [exact Hs |]. split; [exact He |].
  split; [| split].
  - apply contains_unreadable_rom_iff. rewrite Hs, He.
    change (2 ^ 32) with 4294967296 in *. u32_elim. lia.
  - apply not_true_is_false. rewrite contains_unreadable_rom_iff, Hs, He.
    change (2 ^ 32) with 4294967296 in *. u32_elim. lia.
  - apply contains_unreadable_rom_iff. rewrite Hs, He.
    change (2 ^ 32) with 4294967296 in *. u32_elim. lia.
Qed.

(** C9. The models that keep the default sentinel (every class but
    [model_rp2350] and its subclasses) have
    [unreadable_rom_start = unreadable_rom_end = 0xffffffff], and on a model
    with these two values [contains_unreadable_rom] is false for every
    [addr] and [size]: the 32-bit sum [addr + size] never exceeds
    [0xffffffff]. *)
Theorem contains_unreadable_rom_sentinel (m : model_info) (addr size : Z) :
  (is_model_rp2350 (dyn m) = false ->
   unreadable_rom_start m = 0xffffffff /\ unreadable_rom_end m = 0xffffffff)
  /\ u32 (addr + size) <= 0xffffffff
  /\ (unreadable_rom_start m = 0xffffffff ->
      unreadable_rom_end m = 0xffffffff ->
      contains_unreadable_rom addr size m = false).
Proof.
  split; [| split].
  - unfold unreadable_rom_start, unreadable_rom_end. intros ->.
    split; reflexivity.
  - apply u32_range.
  - intros Hs He. apply not_true_is_false.
    rewrite contains_unreadable_rom_iff, Hs, He.
    pose proof (u32_range (addr + size)). lia.
Qed.

(** ** Family resolution *)

Section Registry.

Variable adr : addresses.
Variable fam : family_ids.

Lemma deref_make_shared (obj : model_info) (s : store) :
  deref (fst (make_shared obj s)) (snd (make_shared obj s)) = Some obj.
Proof.
  unfold make_shared, deref. simpl.
  rewrite nth_error_app2 by apply Nat.le_refl.
  rewrite Nat.sub_diag. reflexivity.
Qed.

Lemma model_from_family_other (id : Z) (s : store) :
  id <> RP2040_FAMILY_ID fam -> ~ in_rp2350_ids fam id ->
  model_from_family adr fam id s = (models_unknown s, s).
Proof.
  intros Hne Hout. unfold model_from_family.
  apply Z.eqb_neq in Hne. rewrite Hne.
  apply andb_range_false in Hout. rewrite Hout. reflexivity.
Qed.

(** No call changes what [models::unknown] points to. *)
Lemma model_from_family_keeps_unknown (id : Z) (s : store) :
  models_unknown (snd (model_from_family adr fam id s)) = models_unknown s.
Proof.
  unfold model_from_family.
  destruct (id =? RP2040_FAMILY_ID fam); [reflexivity |].
  destruct ((RP2350_ARM_S_FAMILY_ID fam <=? id)
            && (id <=? RP2350_ARM_NS_FAMILY_ID fam)); reflexivity.
Qed.

Lemma resolve_all_other (ids : list Z) :
  forall (s : store) (i : nat) (id : Z) (p : model_t),
    nth_error ids i = Some id ->
    nth_error (fst (resolve_all adr fam ids s)) i = Some p ->
    id <> RP2040_FAMILY_ID fam -> ~ in_rp2350_ids fam id ->
    p = models_unknown s.
Proof.
  induction ids as [| id0 rest IH]; intros s i id p Hid Hp Hne Hout.
  - destruct i; discriminate.
  - simpl in Hp.
    pose proof (model_from_family_keeps_unknown id0 s) as Hkeep.
    destruct (model_from_family adr fam id0 s) as [p0 s1] eqn:Hcall.
    destruct (resolve_all adr fam rest s1) as [ps s2] eqn:Hrest.
    simpl in Hkeep, Hp. destruct i as [| i]; simpl in Hid, Hp.
    + injection Hid as ->. injection Hp as <-.
      rewrite model_from_family_other in Hcall by assumption.
      injection Hcall as <- _. reflexivity.
    + rewrite <- Hkeep. apply (IH s1 i id p); try assumption.
      rewrite Hrest. exact Hp.
Qed.

(** C3. Provided the family id of the RP2040 lies outside the inclusive
    range from [RP2350_ARM_S_FAMILY_ID] to [RP2350_ARM_NS_FAMILY_ID]:
    [model_from_family] returns, for [RP2040_FAMILY_ID], a model whose chip
    is [rp2040]; for every id of that range, an object of class
    [model_rp2350] itself (chip [rp2350], none of the three subclasses); for
    every other id, the pointer [models::unknown], leaving the store as it
    is. In any run of calls every call with such an id returns the pointer
    [models::unknown] held when the run started. *)
Theorem model_from_family_resolution (s : store) (id : Z) :
  ~ in_rp2350_ids fam (RP2040_FAMILY_ID fam) ->
  let p := fst (model_from_family adr fam id s) in
  let s' := snd (model_from_family adr fam id s) in
  (id = RP2040_FAMILY_ID fam ->
   exists m, deref p s' = Some m /\ chip m = rp2040)
  /\ (in_rp2350_ids fam id ->
      exists m, deref p s' = Some m /\ chip m = rp2350
                /\ dyn m = Cmodel_rp2350
                /\ dyn m <> Cmodel_rp2350_riscv
                /\ dyn m <> Cmodel_rp2350_arm_s
                /\ dyn m <> Cmodel_rp2350_arm_ns)
  /\ (id <> RP2040_FAMILY_ID fam -> ~ in_rp2350_ids fam id ->
      p = models_unknown s /\ s' = s)
  /\ models_unknown s' = models_unknown s
  /\ (forall ids i id' p',
        nth_error ids i = Some id' ->
        nth_error (fst (resolve_all adr fam ids s)) i = Some p' ->
        id' <> RP2040_FAMILY_ID fam -> ~ in_rp2350_ids fam id' ->
        p' = models_unknown s).
Proof.
  intros Hconst p s'. subst p s'.
  split; [| split; [| split; [| split]]].
  - intros ->. unfold model_from_family. rewrite Z.eqb_refl.
    exists (model_rp2040 adr fam).
    split; [apply deref_make_shared | reflexivity].
  - intros Hin. unfold model_from_family.
    assert (Hne : id <> RP2040_FAMILY_ID fam) by congruence.
    apply Z.eqb_neq in Hne. rewrite Hne.
    apply andb_range in Hin. rewrite Hin.
    exists (model_rp2350 adr).
    split; [apply deref_make_shared |].
    repeat split; try reflexivity; discriminate.
  - intros Hne Hout. rewrite model_from_family_other by assumption.
    split; reflexivity.
  - apply model_from_family_keeps_unknown.
  - intros ids. apply resolve_all_other.
Qed.

End Registry.

(** ** The two views of the address space *)

Section Ranges.

Variable adr : addresses.
Variable E : Z.

Lemma eval_args_ret (o : arg_order) (from to : Z) :
  eval_args o (ret from) (ret to) = ret (from, to).
Proof. destruct o; reflexivity. Qed.

(** C6 (amended). On a class derived from [model_rp], in whatever order the
    arguments of each [emplace_back] are evaluated, [address_ranges_flash]
    returns the flash range with [CONTENTS], the sram range with
    [NO_CONTENTS] and the xip_sram range with [NO_CONTENTS], in this order,
    followed by the alias range with [NO_CONTENTS] exactly when [chip()] is
    [rp2040] (four ranges then, three otherwise), and [address_ranges_ram]
    returns the sram range with [CONTENTS], the xip_sram range with
    [CONTENTS] and the rom range with [IGNORE]. On [model_info] and
    [model_unknown] both fail with [ERROR_NOT_POSSIBLE] and return no
    ranges; the description is the one of the accessor that the first
    [emplace_back] evaluates first: the start of the range when its
    arguments run left to right, the end when they run right to left. *)
Theorem address_ranges_views (o1 o2 o3 : arg_order) (m : model_info) :
  (is_model_rp (dyn m) = true ->
   exists fs fe ss se xs xe,
     flash_start adr E m = ret fs /\ flash_end adr E m = ret fe /\
     sram_start adr E m = ret ss /\ sram_end adr E m = ret se /\
     xip_sram_start adr E m = ret xs /\ xip_sram_end adr E m = ret xe /\
     address_ranges_flash adr E o1 o2 o3 m
     = ret ([ Build_address_range fs fe CONTENTS;
              Build_address_range ss se NO_CONTENTS;
              Build_address_range xs xe NO_CONTENTS ]
            ++ match chip m with
               | rp2040 =>
                   [ Build_address_range (MAIN_RAM_BANKED_START adr)
                       (MAIN_RAM_BANKED_END adr) NO_CONTENTS ]
               | _ => []
               end) /\
     (forall ranges,
        result (address_ranges_flash adr E o1 o2 o3 m) = Ok ranges ->
        (chip m = rp2040 -> List.length ranges = 4%nat)
        /\ (chip m <> rp2040 -> List.length ranges = 3%nat)) /\
     address_ranges_ram adr E o1 o2 m
     = ret [ Build_address_range ss se CONTENTS;
             Build_address_range xs xe CONTENTS;
             Build_address_range (rom_start adr m) (rom_end m) IGNORE ])
  /\ (is_model_rp (dyn m) = false ->
      address_ranges_flash adr E o1 o2 o3 m
      = fail E match o1 with
               | left_to_right => "unknown flash start"
               | right_to_left => "unknown flash end"
               end
      /\ address_ranges_ram adr E o1 o2 m
         = fail E match o1 with
                  | left_to_right => "unknown sram start"
                  | right_to_left => "unknown sram end"
                  end
      /\ (forall ranges,
            result (address_ranges_flash adr E o1 o2 o3 m) <> Ok ranges
            /\ result (address_ranges_ram adr E o1 o2 m) <> Ok ranges)).
Proof.
  split; intros Hrp.
  - destruct (model_rp_bounds adr E m Hrp)
      as (fs & fe & ss & se & xs & xe & Hfs & Hfe & Hss & Hse & Hxs & Hxe).
    exists fs, fe, ss, se, xs, xe. repeat (split; [assumption |]).
    assert (Hflash : address_ranges_flash adr E o1 o2 o3 m
      = ret ([ Build_address_range fs fe CONTENTS;
               Build_address_range ss se NO_CONTENTS;
               Build_address_range xs xe NO_CONTENTS ]
             ++ match chip m with
                | rp2040 =>
                    [ Build_address_range (MAIN_RAM_BANKED_START adr)
                        (MAIN_RAM_BANKED_END adr) NO_CONTENTS ]
                | _ => []
                end)).
    { unfold address_ranges_flash.
      rewrite Hfs, Hfe, Hss, Hse, Hxs, Hxe, !eval_args_ret.
      destruct (chip m); reflexivity. }
    split; [exact Hflash |]. split.
    + intros ranges. rewrite Hflash. unfold result, ret. simpl.
      intros [= <-]. destruct (chip m); split; intros H;
        try reflexivity; try discriminate; contradiction.
    + unfold address_ranges_ram.
      rewrite Hss, Hse, Hxs, Hxe, !eval_args_ret. reflexivity.
  - assert (Hfail :
      address_ranges_flash adr E o1 o2 o3 m
      = fail E match o1 with
               | left_to_right => "unknown flash start"
               | right_to_left => "unknown flash end"
               end
      /\ address_ranges_ram adr E o1 o2 m
         = fail E match o1 with
                  | left_to_right => "unknown sram start"
                  | right_to_left => "unknown sram end"
                  end).
    { unfold address_ranges_flash, address_ranges_ram, eval_args,
        flash_start, flash_end, sram_start, sram_end.
      destruct (dyn m); try discriminate Hrp;
        destruct o1; split; reflexivity. }
    destruct Hfail as [Hf Hr]. split; [exact Hf |]. split; [exact Hr |].
    intros ranges. rewrite Hf, Hr. split; discriminate.
Qed.

(** C8. On [model_info] and [model_unknown] each of [flash_start],
    [flash_end], [sram_start], [sram_end], [xip_sram_start] and
    [xip_sram_end] fails with [ERROR_NOT_POSSIBLE] and the description
    ["unknown <field>"]; [rom_start] is [ROM_START] on every model and
    [rom_end] is [0x100] on [model_unknown]. *)
Theorem unknown_model_accessors (m : model_info) :
  is_model_rp (dyn m) = false ->
  result (flash_start adr E m) = Failure E "unknown flash start"
  /\ result (flash_end adr E m) = Failure E "unknown flash end"
  /\ result (sram_start adr E m) = Failure E "unknown sram start"
  /\ result (sram_end adr E m) = Failure E "unknown sram end"
  /\ result (xip_sram_start adr E m) = Failure E "unknown xip sram start"
  /\ result (xip_sram_end adr E m) = Failure E "unknown xip sram end"
  /\ rom_start adr m = ROM_START adr
  /\ is_model_rp (dyn model_unknown) = false
  /\ rom_end model_unknown = 0x100.
Proof.
  intros Hrp.
  unfold flash_start, flash_end, sram_start, sram_end, xip_sram_start,
    xip_sram_end.
  destruct (dyn m); try discriminate; repeat split; reflexivity.
Qed.

End Ranges.

(** ** Supported commands *)

Section Commands.

Variable adr : addresses.
Variable fam : family_ids.

(** The loop of [supports_picoboot_cmds] in closed form. *)
Lemma supports_picoboot_cmds_forallb (m : model_info)
    (cmds : list picoboot_cmd_id) (s : string) :
  supports_picoboot_cmds m cmds s
  = if forallb (supports_picoboot_cmd m) cmds then (true, s)
    else (false, name m).
Proof.
  induction cmds as [| c rest IH]; [reflexivity |].
  simpl. unfold supports_picoboot_cmd_named.
  destruct (supports_picoboot_cmd m c); simpl; [exact IH | reflexivity].
Qed.

Lemma rp2040_lacks_otp_read :
  supports_picoboot_cmd (model_rp2040 adr fam) PC_OTP_READ = false.
Proof. reflexivity. Qed.

(** C7. [supports_picoboot_cmds] always returns: the result is true exactly
    when every command of the set is supported; when a command is not
    supported and those before it are, the result is false with the name of
    the model in the out-parameter, whatever commands follow, and it is the
    result of the set cut after that command. On [model_rp2040] a set with
    [PC_OTP_READ] gives false and the name ["RP2040"], and the set of
    [PC_READ] alone gives true. *)
Theorem supports_picoboot_cmds_short_circuit (m : model_info)
    (cmds : list picoboot_cmd_id) (s : string) :
  (fst (supports_picoboot_cmds m cmds s) = true <->
   forall c, In c cmds -> supports_picoboot_cmd m c = true)
  /\ (forall pre c rest,
        cmds = (pre ++ c :: rest)%list ->
        (forall x, In x pre -> supports_picoboot_cmd m x = true) ->
        supports_picoboot_cmd m c = false ->
        supports_picoboot_cmds m cmds s = (false, name m)
        /\ supports_picoboot_cmds m (pre ++ [c]) s = (false, name m))
  /\ (In PC_OTP_READ cmds ->
      supports_picoboot_cmds (model_rp2040 adr fam) cmds s
      = (false, "RP2040"))
  /\ supports_picoboot_cmds (model_rp2040 adr fam) [PC_READ] s = (true, s).
Proof.
  split; [| split; [| split]].
  - rewrite supports_picoboot_cmds_forallb.
    destruct (forallb (supports_picoboot_cmd m) cmds) eqn:Hall; simpl.
    + rewrite forallb_forall in Hall. split; [intros _; exact Hall | auto].
    + split; [discriminate |]. intros H.
      apply forallb_forall in H. congruence.
  - intros pre c rest -> Hpre Hc.
    rewrite !supports_picoboot_cmds_forallb, !forallb_app. simpl.
    rewrite Hc. simpl. rewrite !andb_false_r. split; reflexivity.
  - intros Hin. rewrite supports_picoboot_cmds_forallb.
    destruct (forallb (supports_picoboot_cmd (model_rp2040 adr fam)) cmds)
      eqn:Hall; [| reflexivity].
    rewrite forallb_forall in Hall. apply Hall in Hin.
    rewrite rp2040_lacks_otp_read in Hin. discriminate.
  - reflexivity.
Qed.

(** C10. With the empty set [supports_picoboot_cmds] returns true and the
    out-parameter as it was; for every set a true result leaves the
    out-parameter as it was, so it is written only when the result is
    false, and then with the name of the model. *)
Theorem supports_picoboot_cmds_out_param (m : model_info)
    (cmds : list picoboot_cmd_id) (s : string) :
  supports_picoboot_cmds m [] s = (true, s)
  /\ (fst (supports_picoboot_cmds m cmds s) = true ->
      snd (supports_picoboot_cmds m cmds s) = s)
  /\ (snd (supports_picoboot_cmds m cmds s) <> s ->
      supports_picoboot_cmds m cmds s = (false, name m)).
Proof.
  split; [reflexivity |].
  rewrite supports_picoboot_cmds_forallb.
  destruct (forallb (supports_picoboot_cmd m) cmds); simpl; split.
  - reflexivity.
  - intros H. exfalso. apply H. reflexivity.
  - discriminate.
  - reflexivity.
Qed.

End Commands.

(** ** The theorems at concrete models

    The models are built with the instance [rp_addresses], [rp_family_ids]
    of the constants. *)

Ltac by_computation :=
  vm_compute; repeat split; solve [reflexivity | discriminate].

Lemma get_memory_type_priority_witness :
  classifies_in_priority_order rp_addresses rp_error_not_possible
    (model_rp2040 rp_addresses rp_family_ids) 0x20000010
  /\ result (get_memory_type rp_addresses rp_error_not_possible 0x20000010
               (model_rp2040 rp_addresses rp_family_ids)) = Ok sram
  /\ result (get_memory_type rp_addresses rp_error_not_possible
               (0x20000000 - 1)
               (model_rp2040 rp_addresses rp_family_ids)) <> Ok sram
  /\ initial_segment
       (probes (get_memory_type rp_addresses rp_error_not_possible
                  0x13ffc000 (model_rp2350 rp_addresses)))
       [probe_flash; probe_sram; probe_xip_sram; probe_rom]
  /\ get_memory_type rp_addresses rp_error_not_possible 0x50 model_unknown
     = ([probe_rom], Ok rom).
Proof.
  destruct (get_memory_type_priority rp_addresses rp_error_not_possible
              (model_rp2040 rp_addresses rp_family_ids))
    as [Hrp _].
  destruct (Hrp eq_refl) as (Horder & _ & Hkinds & _).
  destruct (Hkinds 0x10000000 0x11000000 0x20000000 0x20042000
              0x15000000 0x15004000 eq_refl eq_refl eq_refl eq_refl
              eq_refl eq_refl)
    as (Hin & _ & _ & _ & Hbelow & _).
  assert (Hb : dyn (model_rp2040 rp_addresses rp_family_ids) = Cmodel_rp2040
               -> ~ in_banked rp_addresses 0x20000010).
  { intros _. unfold in_banked. simpl. lia. }
  split; [exact (Horder 0x20000010 Hb) |].
  split; [apply (Hin 0x20000010 Hb); lia |].
  split; [exact Hbelow |].
  split.
  - destruct (get_memory_type_priority rp_addresses rp_error_not_possible
                (model_rp2350 rp_addresses)) as [Hrp' _].
    destruct (Hrp' eq_refl) as (_ & Hlog & _).
    apply Hlog. discriminate.
  - destruct (get_memory_type_priority rp_addresses rp_error_not_possible
                model_unknown) as [_ Hbase].
    exact (Hbase eq_refl 0x50).
Defined.

(** C1, as stated, fails on [model_rp2040]: the first address of the alias
    range lies in none of the FLASH, SRAM, XIP_SRAM and ROM ranges, and is
    classified [sram_unstriped], not [invalid]. *)
Lemma get_memory_type_rp2040_alias_counterexample :
  is_model_rp (dyn (model_rp2040 rp_addresses rp_family_ids)) = true
  /\ result (get_memory_type rp_addresses rp_error_not_possible 0x21000000
               (model_rp2040 rp_addresses rp_family_ids))
     = Ok sram_unstriped
  /\ first_match [ (0x10000000, 0x11000000, flash);
                   (0x20000000, 0x20042000, sram);
                   (0x15000000, 0x15004000, xip_sram);
                   (0x00000000, 0x00004000, rom) ] 0x21000000 = invalid
  /\ ~ classifies_in_priority_order rp_addresses rp_error_not_possible
         (model_rp2040 rp_addresses rp_family_ids) 0x21000000.
Proof.
  split; [reflexivity |]. split; [reflexivity |]. split; [reflexivity |].
  intros (fs & fe & ss & se & xs & xe
          & Hfs & Hfe & Hss & Hse & Hxs & Hxe & Hres).
  injection Hfs as <-. injection Hfe as <-. injection Hss as <-.
  injection Hse as <-. injection Hxs as <-. injection Hxe as <-.
  vm_compute in Hres. discriminate.
Qed.

Lemma rp2040_alias_tested_first_witness :
  get_memory_type rp_addresses rp_error_not_possible 0x21000000
    (model_rp2040 rp_addresses rp_family_ids)
  = ([probe_banked], Ok sram_unstriped).
Proof.
  destruct (rp2040_alias_tested_first rp_addresses rp_error_not_possible
              (model_rp2040 rp_addresses rp_family_ids) 0x21000000 eq_refl)
    as [Hin _].
  apply Hin. unfold in_banked. simpl. lia.
Defined.

(** C5, as stated, fails: at an address of the alias range the alias test is
    the only test evaluated, and at address 0 it is evaluated ahead of the
    FLASH, SRAM and XIP_SRAM tests. *)
Lemma rp2040_alias_order_counterexample :
  probes (get_memory_type rp_addresses rp_error_not_possible 0x21000000
            (model_rp2040 rp_addresses rp_family_ids))
  = [probe_banked]
  /\ ~ alias_tested_after_ranges
         (probes (get_memory_type rp_addresses rp_error_not_possible
                    0x21000000 (model_rp2040 rp_addresses rp_family_ids)))
  /\ probes (get_memory_type rp_addresses rp_error_not_possible 0
               (model_rp2040 rp_addresses rp_family_ids))
     = [probe_banked; probe_flash; probe_sram; probe_xip_sram; probe_rom]
  /\ ~ alias_tested_after_ranges
         (probes (get_memory_type rp_addresses rp_error_not_possible 0
                    (model_rp2040 rp_addresses rp_family_ids))).
Proof.
  split; [reflexivity |]. split; [| split; [reflexivity |]].
  - change (probes (get_memory_type rp_addresses rp_error_not_possible
                      0x21000000 (model_rp2040 rp_addresses rp_family_ids)))
      with [probe_banked].
    intros [H _]. revert H. apply not_tested_before_head. simpl. tauto.
  - change (probes (get_memory_type rp_addresses rp_error_not_possible 0
                      (model_rp2040 rp_addresses rp_family_ids)))
      with [probe_banked; probe_flash; probe_sram; probe_xip_sram;
            probe_rom].
    intros [H _]. revert H. apply not_tested_before_head. simpl.
    intros [H | [H | [H | [H | []]]]]; discriminate.
Qed.

Lemma contains_unreadable_rom_intersects_witness :
  (contains_unreadable_rom 0x7d00 0x200
     (model_rp2350_at Cmodel_rp2350 0x8000) = true <->
   ranges_intersect 0x7d00 0x200
     (unreadable_rom_start (model_rp2350_at Cmodel_rp2350 0x8000))
     (unreadable_rom_end (model_rp2350_at Cmodel_rp2350 0x8000)))
  /\ contains_unreadable_rom 0x7d00 0x200
       (model_rp2350_at Cmodel_rp2350 0x8000) = true.
Proof.
  assert (Ha : is_u32 0x7d00) by by_computation.
  assert (Hs : is_u32 0x200) by by_computation.
  assert (Hpos : 0 < 0x200) by by_computation.
  assert (Hsum : 0x7d00 + 0x200 < 2 ^ 32) by by_computation.
  assert (Hord : unreadable_rom_start (model_rp2350_at Cmodel_rp2350 0x8000)
                 <= unreadable_rom_end (model_rp2350_at Cmodel_rp2350 0x8000))
    by by_computation.
  destruct (contains_unreadable_rom_intersects
              (model_rp2350_at Cmodel_rp2350 0x8000) 0x7d00 0x200
              Ha Hs Hpos Hsum Hord) as [Hiff _].
  split; [exact Hiff | reflexivity].
Defined.

(** C2, as stated, fails in three ways: an empty range ([size = 0]) inside
    the protected range gives true; a range that runs to the end of the
    32-bit address space and covers the protected range gives false, the
    sum [addr + size] wrapping to 0; on a [model_rp2350] built with a ROM
    shorter than 512 bytes the protected range is empty
    ([unreadable_rom_start > unreadable_rom_end]) and a range gives true. *)
Lemma contains_unreadable_rom_counterexample :
  (contains_unreadable_rom 0x7f00 0
     (model_rp2350_at Cmodel_rp2350 0x8000) = true
   /\ ~ ranges_intersect 0x7f00 0
          (unreadable_rom_start (model_rp2350_at Cmodel_rp2350 0x8000))
          (unreadable_rom_end (model_rp2350_at Cmodel_rp2350 0x8000)))
  /\ (contains_unreadable_rom 0x7000 (2 ^ 32 - 0x7000)
        (model_rp2350_at Cmodel_rp2350 0x8000) = false
      /\ is_u32 (2 ^ 32 - 0x7000)
      /\ ranges_intersect 0x7000 (2 ^ 32 - 0x7000)
           (unreadable_rom_start (model_rp2350_at Cmodel_rp2350 0x8000))
           (unreadable_rom_end (model_rp2350_at Cmodel_rp2350 0x8000)))
  /\ (contains_unreadable_rom 0 0x200
        (model_rp2350_at Cmodel_rp2350 0x100) = true
      /\ ~ ranges_intersect 0 0x200
             (unreadable_rom_start (model_rp2350_at Cmodel_rp2350 0x100))
             (unreadable_rom_end (model_rp2350_at Cmodel_rp2350 0x100))).
Proof.
  split; [| split].
  - split; [reflexivity |]. intros (b & Hb & _). lia.
  - split; [reflexivity |]. split; [by_computation |].
    exists 0x7e00. by_computation.
  - split; [reflexivity |].
    change (unreadable_rom_start (model_rp2350_at Cmodel_rp2350 0x100))
      with 0xffffff00.
    change (unreadable_rom_end (model_rp2350_at Cmodel_rp2350 0x100))
      with 0x100.
    intros (b & _ & Hb). lia.
Qed.

Lemma rp2350_unreadable_rom_tail_witness :
  unreadable_rom_start (model_rp2350 rp_addresses) = 0x8000 - 0x200
  /\ contains_unreadable_rom (u32 (0x8000 - 300)) 50
       (model_rp2350 rp_addresses) = true
  /\ contains_unreadable_rom (u32 (0x8000 - 600)) 50
       (model_rp2350 rp_addresses) = false
  /\ contains_unreadable_rom (u32 (0x8000 - 512)) 1
       (model_rp2350 rp_addresses) = true.
Proof.
  assert (Hr : 0x200 <= rom_end (model_rp2350 rp_addresses) < 2 ^ 32)
    by by_computation.
  destruct (rp2350_unreadable_rom_tail (model_rp2350 rp_addresses)
              eq_refl Hr) as (Hs & _ & H300 & H600 & H512).
  split; [exact Hs |]. split; [exact H300 |]. split; [exact H600 |].
  exact H512.
Defined.

Lemma contains_unreadable_rom_sentinel_witness :
  contains_unreadable_rom 0xfffffff0 0x20
    (model_rp2040 rp_addresses rp_family_ids) = false.
Proof.
  destruct (contains_unreadable_rom_sentinel
              (model_rp2040 rp_addresses rp_family_ids) 0xfffffff0 0x20)
    as (Hkeep & _ & Hfalse).
  destruct (Hkeep eq_refl) as [Hs He].
  exact (Hfalse Hs He).
Defined.

Lemma model_from_family_resolution_witness :
  (exists m,
     deref (fst (model_from_family rp_addresses rp_family_ids 0xe48bff5a
                   initial_store))
       (snd (model_from_family rp_addresses rp_family_ids 0xe48bff5a
               initial_store)) = Some m
     /\ chip m = rp2350 /\ dyn m = Cmodel_rp2350)
  /\ fst (model_from_family rp_addresses rp_family_ids 0xe48bff57
            initial_store) = models_unknown initial_store.
Proof.
  assert (Hconst : ~ in_rp2350_ids rp_family_ids
                       (RP2040_FAMILY_ID rp_family_ids)).
  { unfold in_rp2350_ids. simpl. lia. }
  split.
  - destruct (model_from_family_resolution rp_addresses rp_family_ids
                initial_store 0xe48bff5a Hconst) as (_ & Hin & _).
    destruct Hin as (m & Hm & Hchip & Hdyn & _).
    { unfold in_rp2350_ids. simpl. lia. }
    exists m. split; [exact Hm |]. split; assumption.
  - destruct (model_from_family_resolution rp_addresses rp_family_ids
                initial_store 0xe48bff57 Hconst) as (_ & _ & Hother & _).
    apply Hother.
    + simpl. lia.
    + unfold in_rp2350_ids. simpl. lia.
Defined.

Lemma address_ranges_views_witness :
  exists ranges,
    result (address_ranges_flash rp_addresses rp_error_not_possible
              right_to_left left_to_right right_to_left
              (model_rp2040 rp_addresses rp_family_ids)) = Ok ranges
    /\ List.length ranges = 4%nat.
Proof.
  destruct (address_ranges_views rp_addresses rp_error_not_possible
              right_to_left left_to_right right_to_left
              (model_rp2040 rp_addresses rp_family_ids)) as [Hrp _].
  destruct (Hrp eq_refl)
    as (fs & fe & ss & se & xs & xe & _ & _ & _ & _ & _ & _
        & Hflash & Hlen & _).
  eexists. split.
  - rewrite Hflash. reflexivity.
  - apply (Hlen _ (f_equal result Hflash)). reflexivity.
Defined.

(** C6, as stated, fails on [model_unknown]: in whatever order the
    arguments are evaluated, both views fail at the first accessor they
    evaluate and return no ranges. The description is the one of
    [flash_start] or [sram_start] when the arguments of the first
    [emplace_back] run left to right, of [flash_end] or [sram_end] when
    they run right to left. *)
Lemma address_ranges_unknown_counterexample :
  ~ (exists o1 o2 o3 ranges,
       result (address_ranges_flash rp_addresses rp_error_not_possible
                 o1 o2 o3 model_unknown) = Ok ranges)
  /\ ~ (exists o1 o2 ranges,
          result (address_ranges_ram rp_addresses rp_error_not_possible
                    o1 o2 model_unknown) = Ok ranges)
  /\ address_ranges_flash rp_addresses rp_error_not_possible
       left_to_right left_to_right left_to_right model_unknown
     = fail rp_error_not_possible "unknown flash start"
  /\ address_ranges_flash rp_addresses rp_error_not_possible
       right_to_left right_to_left right_to_left model_unknown
     = fail rp_error_not_possible "unknown flash end"
  /\ address_ranges_ram rp_addresses rp_error_not_possible
       left_to_right left_to_right model_unknown
     = fail rp_error_not_possible "unknown sram start"
  /\ address_ranges_ram rp_addresses rp_error_not_possible
       right_to_left right_to_left model_unknown
     = fail rp_error_not_possible "unknown sram end".
Proof.
  split; [| split; [| repeat split; reflexivity]].
  - intros (o1 & o2 & o3 & ranges & H). destruct o1; discriminate.
  - intros (o1 & o2 & ranges & H). destruct o1; discriminate.
Qed.

Lemma unknown_model_accessors_witness :
  result (flash_start rp_addresses rp_error_not_possible model_unknown)
  = Failure rp_error_not_possible "unknown flash start"
  /\ rom_end model_unknown = 0x100.
Proof.
  destruct (unknown_model_accessors rp_addresses rp_error_not_possible
              model_unknown eq_refl)
    as (Hfs & _ & _ & _ & _ & _ & _ & _ & Hrom).
  split; [exact Hfs | exact Hrom].
Defined.

Lemma supports_picoboot_cmds_short_circuit_witness :
  supports_picoboot_cmds (model_rp2040 rp_addresses rp_family_ids)
    [PC_READ; PC_OTP_READ; PC_WRITE] "none"
  = (false, "RP2040")
  /\ supports_picoboot_cmds (model_rp2040 rp_addresses rp_family_ids)
       [PC_READ; PC_OTP_READ] "none"
     = (false, "RP2040").
Proof.
  destruct (supports_picoboot_cmds_short_circuit rp_addresses rp_family_ids
              (model_rp2040 rp_addresses rp_family_ids)
              [PC_READ; PC_OTP_READ; PC_WRITE] "none")
    as (_ & Hcut & _).
  destruct (Hcut [PC_READ] PC_OTP_READ [PC_WRITE] eq_refl) as [H1 H2].
  - intros x [<- | []]. reflexivity.
  - reflexivity.
  - split; [exact H1 | exact H2].
Defined.

Lemma supports_picoboot_cmds_out_param_witness :
  snd (supports_picoboot_cmds (model_rp2040 rp_addresses rp_family_ids)
         [PC_READ; PC_WRITE] "none") = "none".
Proof.
  destruct (supports_picoboot_cmds_out_param
              (model_rp2040 rp_addresses rp_family_ids)
              [PC_READ; PC_WRITE] "none") as (_ & Hkeep & _).
  apply Hkeep. reflexivity.
Defined.

(** ** Further properties of the classifier *)

Lemma first_match_four_cover (fs fe ss se xs xe rs re addr : Z) :
  let k := first_match [ (fs, fe, flash); (ss, se, sram);
                         (xs, xe, xip_sram); (rs, re, rom) ] addr in
  (fs <= addr <= fe \/ ss <= addr <= se \/ xs <= addr <= xe ->
   declared_kind k)
  /\ (rs <= addr <= re -> k <> invalid)
  /\ (k = rom -> rs <= addr <= re)
  /\ (k = invalid ->
      ~ fs <= addr <= fe /\ ~ ss <= addr <= se /\ ~ xs <= addr <= xe
      /\ ~ rs <= addr <= re)
  /\ k <> sram_unstriped.
Proof.
  unfold declared_kind. simpl.
  destruct ((fs <=? addr) && (addr <=? fe)) eqn:Hf;
  destruct ((ss <=? addr) && (addr <=? se)) eqn:Hs;
  destruct ((xs <=? addr) && (addr <=? xe)) eqn:Hx;
  destruct ((rs <=? addr) && (addr <=? re)) eqn:Hr;
  reflect_ranges;
  (split; [| split; [| split; [| split]]]);
  try discriminate; try tauto; intros; try discriminate; tauto.
Qed.

(** Splits the conjunctions of the goal, and nothing they hide. *)
Ltac split_all := repeat match goal with |- _ /\ _ => split end.

Lemma Ok_inj {A : Type} (a b : A) : Ok a = Ok b -> a = b.
Proof. intros H. injection H as ->. reflexivity. Qed.

Lemma ret_inj {A : Type} (a b : A) : ret a = ret b -> a = b.
Proof. intros H. injection H as ->. reflexivity. Qed.

Section ClassifierProperties.

Variable adr : addresses.
Variable fam : family_ids.
Variable E : Z.

(** The value of the classifier on a class derived from [model_rp], outside
    the case of the alias range. *)
Lemma get_memory_type_rp_result (m : model_info) (addr : Z)
    (fs fe ss se xs xe : Z) :
  is_model_rp (dyn m) = true ->
  (dyn m = Cmodel_rp2040 -> ~ in_banked adr addr) ->
  flash_start adr E m = ret fs -> flash_end adr E m = ret fe ->
  sram_start adr E m = ret ss -> sram_end adr E m = ret se ->
  xip_sram_start adr E m = ret xs -> xip_sram_end adr E m = ret xe ->
  result (get_memory_type adr E addr m)
  = Ok (first_match [ (fs, fe, flash); (ss, se, sram); (xs, xe, xip_sram);
                      (rom_start adr m, rom_end m, rom) ] addr).
Proof.
  intros Hrp Hb Hfs Hfe Hss Hse Hxs Hxe.
  rewrite get_memory_type_not_banked by assumption.
  apply model_rp_get_memory_type_eq; assumption.
Qed.

(** X1. [get_memory_type] fails on no model, the base and unknown ones
    included, and the kind it returns is backed by a range: [rom] only
    inside [[rom_start, rom_end]], [sram_unstriped] only on [model_rp2040]
    inside the alias range, a flash/sram/xip_sram kind only on a class
    derived from [model_rp], and [invalid] only for an address that is in
    no range of the model at all. *)
Theorem get_memory_type_sound (m : model_info) (addr : Z) :
  exists k,
    result (get_memory_type adr E addr m) = Ok k
    /\ (k = rom -> rom_start adr m <= addr <= rom_end m)
    /\ (k = sram_unstriped ->
        dyn m = Cmodel_rp2040 /\ in_banked adr addr)
    /\ (declared_kind k -> is_model_rp (dyn m) = true)
    /\ (k = invalid ->
        ~ rom_start adr m <= addr <= rom_end m
        /\ (dyn m = Cmodel_rp2040 -> ~ in_banked adr addr)
        /\ (forall lo hi,
              (flash_start adr E m = ret lo /\ flash_end adr E m = ret hi)
              \/ (sram_start adr E m = ret lo /\ sram_end adr E m = ret hi)
              \/ (xip_sram_start adr E m = ret lo
                  /\ xip_sram_end adr E m = ret hi) ->
              ~ lo <= addr <= hi)).
Proof.
  destruct (is_model_rp (dyn m)) eqn:Hrp.
  - destruct (banked_cases adr m addr) as [[Hd Hb] | Hb].
    + rewrite (get_memory_type_in_banked adr E m addr Hd Hb).
      unfold declared_kind.
      eexists. split; [reflexivity |]. split; [discriminate |].
      split; [intros _; split; assumption |].
      split; [intros [H | [H | H]]; discriminate | discriminate].
    + destruct (model_rp_bounds adr E m Hrp)
        as (fs & fe & ss & se & xs & xe & Hfs & Hfe & Hss & Hse & Hxs & Hxe).
      eexists. split.
      { apply (get_memory_type_rp_result m addr fs fe ss se xs xe);
          assumption. }
      pose proof (first_match_four_cover fs fe ss se xs xe (rom_start adr m)
                    (rom_end m) addr) as Hk; cbv zeta in Hk.
      destruct Hk as (_ & _ & Hrom & Hinv & Hnot).
      split; [exact Hrom |]. split; [intros H; contradiction |].
      split; [reflexivity |].
      intros H. destruct (Hinv H) as (Hf & Hs & Hx & Hr).
      split; [exact Hr |]. split; [exact Hb |].
      intros lo hi [[Hlo Hhi] | [[Hlo Hhi] | [Hlo Hhi]]];
        rewrite Hlo in *; rewrite Hhi in *;
        repeat match goal with
        | H : ret _ = ret _ |- _ => apply ret_inj in H; subst
        end; assumption.
  - assert (Hbase : get_memory_type adr E addr m
                    = model_info_get_memory_type adr m addr).
    { unfold get_memory_type. destruct (dyn m); try discriminate;
        reflexivity. }
    rewrite Hbase, model_info_get_memory_type_eq. unfold result. simpl.
    unfold declared_kind.
    destruct ((rom_start adr m <=? addr) && (addr <=? rom_end m)) eqn:Hr;
      reflect_ranges; eexists; (split; [reflexivity |]).
    + split; [intros _; exact Hr |]. split; [discriminate |].
      split; [intros [H | [H | H]]; discriminate | discriminate].
    + split; [discriminate |]. split; [discriminate |].
      split; [intros [H | [H | H]]; discriminate |].
      intros _. split; [exact Hr |]. split.
      * intros Hd. rewrite Hd in Hrp. discriminate.
      * intros lo hi.
        unfold flash_start, sram_start, xip_sram_start.
        destruct (dyn m); try discriminate Hrp;
          intros [[H _] | [[H _] | [H _]]]; discriminate.
Qed.

(** X2. The generic model is at least as permissive as a model of either
    generation: an address that a class derived from [model_rp] classifies
    as flash, sram or xip_sram is classified as one of these three by
    [model_rp_generic] too, never as [rom] or [invalid], and flash stays
    flash. *)
Theorem generic_most_permissive (m g : model_info) (addr : Z)
    (k : memory_type) :
  is_model_rp (dyn m) = true ->
  dyn g = Cmodel_rp_generic ->
  result (get_memory_type adr E addr m) = Ok k ->
  declared_kind k ->
  exists k',
    result (get_memory_type adr E addr g) = Ok k'
    /\ declared_kind k' /\ (k = flash -> k' = flash).
Proof.
  intros Hrp Hg Hres Hk.
  destruct (banked_cases adr m addr) as [[Hd Hb] | Hb].
  { rewrite (get_memory_type_in_banked adr E m addr Hd Hb) in Hres.
    injection Hres as <-. destruct Hk as [H | [H | H]]; discriminate. }
  destruct (model_rp_bounds adr E m Hrp)
    as (fs & fe & ss & se & xs & xe & Hfs & Hfe & Hss & Hse & Hxs & Hxe).
  rewrite (get_memory_type_rp_result m addr fs fe ss se xs xe) in Hres
    by assumption.
  apply Ok_inj in Hres.
  pose proof (first_match_four fs fe ss se xs xe (rom_start adr m)
                (rom_end m) addr) as Hm; cbv zeta in Hm.
  rewrite Hres in Hm. destruct Hm as (_ & _ & _ & Hf & Hs & Hx).
  assert (Hgrp : is_model_rp (dyn g) = true) by (rewrite Hg; reflexivity).
  assert (Hgb : dyn g = Cmodel_rp2040 -> ~ in_banked adr addr)
    by (rewrite Hg; discriminate).
  eexists. split.
  { apply (get_memory_type_rp_result g addr
             (FLASH_START adr)
             (Z.max (FLASH_END_RP2040 adr) (FLASH_END_RP2350 adr))
             (SRAM_START adr)
             (Z.max (SRAM_END_RP2040 adr) (SRAM_END_RP2350 adr))
             (Z.min (XIP_SRAM_START_RP2040 adr) (XIP_SRAM_START_RP2350 adr))
             (Z.max (XIP_SRAM_END_RP2040 adr) (XIP_SRAM_END_RP2350 adr)));
      try assumption;
      unfold flash_start, flash_end, sram_start, sram_end, xip_sram_start,
        xip_sram_end; rewrite Hg; reflexivity. }
  match goal with
  | |- declared_kind (first_match [ (?a, ?b, _); (?c, ?d, _); (?e, ?f, _);
                                    (?r, ?t, _) ] _) /\ _ =>
      pose proof (first_match_four a b c d e f r t addr) as Hg4;
      pose proof (first_match_four_cover a b c d e f r t addr) as Hgc
  end.
  cbv zeta in Hg4, Hgc.
  destruct Hg4 as (Hgf & _). destruct Hgc as (Hcover & _).
  unfold flash_start, flash_end, sram_start, sram_end, xip_sram_start,
    xip_sram_end in Hfs, Hfe, Hss, Hse, Hxs, Hxe.
  destruct (dyn m); try discriminate Hrp;
    apply ret_inj in Hfs, Hfe, Hss, Hse, Hxs, Hxe; subst fs fe ss se xs xe;
    (split;
     [ apply Hcover;
       destruct Hk as [Hk | [Hk | Hk]];
       [apply Hf in Hk | apply Hs in Hk | apply Hx in Hk]; lia
     | intros Hkf; apply Hgf; apply Hf in Hkf; lia ]).
Qed.

End ClassifierProperties.

(** ** The constructed models *)

Section Constructed.

Variable adr : addresses.
Variable fam : family_ids.
Variable E : Z.

(** The chip of a constructed object tells its class. *)
Lemma constructed_chip_class (m : model_info) :
  constructed adr fam m ->
  (chip m = rp2040 <-> dyn m = Cmodel_rp2040)
  /\ (chip m = rp2350 <-> is_model_rp2350 (dyn m) = true)
  /\ (chip m = unknown <->
      dyn m = Cmodel_unknown \/ dyn m = Cmodel_rp_generic).
Proof.
  induction 1; try exact IHconstructed; simpl;
    (split; [| split]); split; intros H;
    try discriminate; try reflexivity;
    try (left; reflexivity); try (right; reflexivity);
    destruct H; discriminate.
Qed.

(** The chip of a constructed object tells its command set. *)
Lemma constructed_cmds (m : model_info) :
  constructed adr fam m ->
  _picoboot_cmds m
  = match chip m with
    | rp2040 => rp2040_cmds
    | rp2350 => rp2350_cmds
    | unknown => []
    end.
Proof. induction 1; try exact IHconstructed; reflexivity. Qed.

(** X3. Every object built by a constructor of a derived class, whatever
    setters ran on it, keeps chip, class, command set, name and ROM size in
    step: the chip is [rp2040] exactly for class [model_rp2040], [rp2350]
    exactly for [model_rp2350] and its subclasses, [unknown] exactly for
    [model_unknown] and [model_rp_generic]; the command set is the one of
    the chip; the name is [chip_name] of the chip, except ["RP2350(64k)"]
    for an rp2350 with [rom_end > 0x8000]; and an unknown chip has
    [rom_end = 0x100]. *)
Theorem constructed_models_invariant (m : model_info) :
  constructed adr fam m ->
  ((chip m = rp2040 <-> dyn m = Cmodel_rp2040)
   /\ (chip m = rp2350 <-> is_model_rp2350 (dyn m) = true)
   /\ (chip m = unknown <->
       dyn m = Cmodel_unknown \/ dyn m = Cmodel_rp_generic))
  /\ _picoboot_cmds m
     = match chip m with
       | rp2040 => rp2040_cmds
       | rp2350 => rp2350_cmds
       | unknown => []
       end
  /\ name m
     = match chip m with
       | rp2350 => if 0x8000 <? rom_end m then "RP2350(64k)" else "RP2350"
       | c => chip_name c
       end
  /\ (chip m = unknown -> rom_end m = 0x100)
  /\ (chip m = rp2040 -> rom_end m = ROM_END_RP2040 adr).
Proof.
  intros Hc.
  split; [apply constructed_chip_class; exact Hc |].
  split; [apply constructed_cmds; exact Hc |].
  induction Hc; try exact IHHc; simpl;
    split_all; intros; try discriminate; reflexivity.
Qed.

(** X4. On a constructed object the capability queries agree with the
    chip: [supports_otp_v2] is false on every model;
    [supports_partition_table] and [requires_block_loop] hold exactly on an
    rp2350, which is also exactly where the OTP commands are supported;
    [rom_table_version] is 1 exactly on an rp2040, 2 exactly on an rp2350,
    and fails with [ERROR_NOT_POSSIBLE] on an unknown chip, the generic
    model included although its memory map is defined. *)
Theorem capabilities_follow_chip (m : model_info) :
  constructed adr fam m ->
  supports_otp_v2 m = false
  /\ (supports_partition_table m = true <-> chip m = rp2350)
  /\ requires_block_loop m = supports_partition_table m
  /\ supports_picoboot_cmd m PC_OTP_READ = supports_partition_table m
  /\ supports_picoboot_cmd m PC_OTP_WRITE = supports_partition_table m
  /\ (rom_table_version E m = ret 1 <-> chip m = rp2040)
  /\ (rom_table_version E m = ret 2 <-> chip m = rp2350)
  /\ (chip m = unknown ->
      rom_table_version E m = fail E "unknown rom table version")
  /\ (dyn m = Cmodel_rp_generic ->
      rom_table_version E m = fail E "unknown rom table version"
      /\ flash_start adr E m = ret (FLASH_START adr)).
Proof.
  intros Hc.
  destruct (constructed_chip_class m Hc) as (H40 & H50 & Hun).
  pose proof (constructed_cmds m Hc) as Hcmds.
  unfold supports_partition_table, requires_block_loop,
    supports_picoboot_cmd, rom_table_version, flash_start.
  rewrite Hcmds.
  destruct (chip m) eqn:Hchip.
  - assert (Hd : dyn m = Cmodel_rp2040) by (apply H40; reflexivity).
    rewrite Hd. simpl.
    split_all; try reflexivity; try (split; intros; discriminate);
      try (split; intros; reflexivity); intros; discriminate.
  - assert (Hd : is_model_rp2350 (dyn m) = true) by (apply H50; reflexivity).
    rewrite Hd. destruct (dyn m); try discriminate Hd; simpl;
      split_all; try reflexivity; try (split; intros; discriminate);
      try (split; intros; reflexivity); intros; discriminate.
  - assert (Hd : dyn m = Cmodel_unknown \/ dyn m = Cmodel_rp_generic)
      by (apply Hun; reflexivity).
    destruct Hd as [Hd | Hd]; rewrite Hd; simpl;
      split_all; try reflexivity; try (split; intros; discriminate);
      try (split; intros; reflexivity); intros; try discriminate;
      split; reflexivity.
Qed.

(** X5. On a constructed object, in whatever order the arguments of the
    views are evaluated, every address of every range of the two views is
    real memory for the classifier: [get_memory_type] returns
    neither [invalid] nor, for a range that is not [IGNORE], [rom]. *)
Theorem address_ranges_classified (o1 o2 o3 : arg_order) (m : model_info)
    (ranges : address_ranges) (r : address_range) (addr : Z) :
  constructed adr fam m ->
  result (address_ranges_flash adr E o1 o2 o3 m) = Ok ranges
  \/ result (address_ranges_ram adr E o1 o2 m) = Ok ranges ->
  In r ranges ->
  in_address_range r addr ->
  exists k,
    result (get_memory_type adr E addr m) = Ok k
    /\ k <> invalid
    /\ (range_type r <> IGNORE -> k <> rom).
Proof.
  intros Hc Hview Hin Haddr.
  destruct (constructed_chip_class m Hc) as (H40 & _ & _).
  assert (Hrp : is_model_rp (dyn m) = true).
  { destruct (is_model_rp (dyn m)) eqn:Hrp; [reflexivity |].
    unfold address_ranges_flash, address_ranges_ram, eval_args,
      flash_start, flash_end, sram_start, sram_end in Hview.
    destruct (dyn m); try discriminate Hrp;
      destruct o1; destruct Hview; discriminate. }
  destruct (model_rp_bounds adr E m Hrp)
    as (fs & fe & ss & se & xs & xe & Hfs & Hfe & Hss & Hse & Hxs & Hxe).
  assert (Hcases :
    (dyn m = Cmodel_rp2040 /\ in_banked adr addr)
    \/ ((fs <= addr <= fe \/ ss <= addr <= se \/ xs <= addr <= xe)
        /\ range_type r <> IGNORE)
    \/ (rom_start adr m <= addr <= rom_end m /\ range_type r = IGNORE)).
  { unfold address_ranges_flash, address_ranges_ram in Hview.
    rewrite Hfs, Hfe, Hss, Hse, Hxs, Hxe, !eval_args_ret in Hview.
    unfold in_address_range in Haddr.
    destruct Hview as [Hview | Hview].
    - destruct (chip m) eqn:Hchip; apply Ok_inj in Hview; subst ranges;
        simpl in Hin;
        repeat match goal with
        | H : _ \/ _ |- _ => destruct H
        | H : False |- _ => contradiction
        end; subst r; simpl in *;
        try (right; left; split; [tauto | discriminate]).
      left. split; [apply H40; reflexivity | exact Haddr].
    - apply Ok_inj in Hview; subst ranges; simpl in Hin;
        repeat match goal with
        | H : _ \/ _ |- _ => destruct H
        | H : False |- _ => contradiction
        end; subst r; simpl in *;
        try (right; left; split; [tauto | discriminate]).
      right. right. split; [exact Haddr | reflexivity]. }
  destruct (banked_cases adr m addr) as [[Hd Hb] | Hb].
  { exists sram_unstriped.
    rewrite (get_memory_type_in_banked adr E m addr Hd Hb).
    split; [reflexivity |]. split; [discriminate | intros _; discriminate]. }
  eexists. split.
  { apply (get_memory_type_rp_result adr E m addr fs fe ss se xs xe);
      assumption. }
  pose proof (first_match_four_cover fs fe ss se xs xe (rom_start adr m)
                (rom_end m) addr) as Hk; cbv zeta in Hk.
  destruct Hk as (Hdecl & Hrom & _ & _ & _).
  destruct Hcases as [[Hd Hbk] | [[Hdec Hty] | [Hr Hty]]].
  - exfalso. exact (Hb Hd Hbk).
  - apply Hdecl in Hdec. unfold declared_kind in Hdec.
    split; [| intros _];
      destruct Hdec as [-> | [-> | ->]]; discriminate.
  - split; [exact (Hrom Hr) | intros H; contradiction].
Qed.

End Constructed.

(** ** Revisions, setters and sub-variants *)

(** X6. With the revision set, [revision_name] and [unreadable_rom_data]
    are keyed alike: a data table is returned only by [model_rp2350] and
    its subclasses and only for a revision that has a label other than
    ["Unknown"]; on these classes the data is null exactly when the label
    is ["Unknown"], and on every other class it is null whatever the
    revision. *)
Theorem unreadable_rom_data_follows_revision (m : model_info)
    (revision : chip_revision_t) :
  chip_revision m = Some revision ->
  (exists label d,
     revision_name m = Some label /\ unreadable_rom_data m = Some d
     /\ (d <> nullptr ->
         is_model_rp2350 (dyn m) = true /\ label <> "Unknown")
     /\ (is_model_rp2350 (dyn m) = true ->
         (d = nullptr <-> label = "Unknown"))
     /\ (is_model_rp2350 (dyn m) = false -> d = nullptr))
  /\ (dyn m = Cmodel_rp2040 ->
      (revision_name m <> Some "Unknown" <->
       revision = rp2040_b0 \/ revision = rp2040_b1
       \/ revision = rp2040_b2)).
Proof.
  intros Hrev. unfold revision_name, unreadable_rom_data. rewrite Hrev.
  split.
  - destruct (dyn m); simpl; do 2 eexists;
      (split; [reflexivity |]); (split; [reflexivity |]);
      (split; [| split]);
      try (intros H; exfalso; apply H; reflexivity);
      try discriminate; try reflexivity;
      destruct revision; simpl; unfold model_info_revision_name;
      (try (intros H; split; [reflexivity | discriminate]));
      (try (intros H; exfalso; apply H; reflexivity));
      (try (intros _; split; intros; (reflexivity || discriminate))).
  - intros ->. simpl.
    destruct revision; simpl; unfold model_info_revision_name; split;
      intros H;
      try (exfalso; apply H; reflexivity);
      try discriminate;
      try (left; reflexivity); try (right; left; reflexivity);
      try (right; right; reflexivity);
      destruct H as [H | [H | H]]; discriminate.
Qed.

Section Setters.

Variable adr : addresses.
Variable E : Z.

(** X7. The two setters of the identification step change nothing that the
    memory map or the capabilities depend on: classification, both range
    views, the protected-ROM test, the command test and the ROM table
    version are the same before and after; each setter leaves the field of
    the other alone, and the two commute. *)
Theorem setters_keep_queries (m : model_info) (revision : chip_revision_t)
    (id addr size : Z) (cmds : list picoboot_cmd_id) (s : string) :
  (forall m',
     m' = set_chip_revision revision m \/ m' = set_family_id id m ->
     get_memory_type adr E addr m' = get_memory_type adr E addr m
     /\ (forall o1 o2 o3,
           address_ranges_flash adr E o1 o2 o3 m'
           = address_ranges_flash adr E o1 o2 o3 m)
     /\ (forall o1 o2,
           address_ranges_ram adr E o1 o2 m'
           = address_ranges_ram adr E o1 o2 m)
     /\ contains_unreadable_rom addr size m'
        = contains_unreadable_rom addr size m
     /\ supports_picoboot_cmds m' cmds s = supports_picoboot_cmds m cmds s
     /\ rom_table_version E m' = rom_table_version E m)
  /\ family_id (set_chip_revision revision m) = family_id m
  /\ chip_revision (set_family_id id m) = chip_revision m
  /\ revision_name (set_family_id id m) = revision_name m
  /\ unreadable_rom_data (set_family_id id m) = unreadable_rom_data m
  /\ set_chip_revision revision (set_family_id id m)
     = set_family_id id (set_chip_revision revision m).
Proof.
  split; [| split_all; reflexivity].
  intros m' [-> | ->]; rewrite !supports_picoboot_cmds_forallb;
    split_all; reflexivity.
Qed.

End Setters.

(** ** Further properties of the command test *)

Lemma forallb_same_elements {A : Type} (f : A -> bool) (l1 l2 : list A) :
  (forall x, In x l1 -> In x l2) ->
  forallb f l2 = true -> forallb f l1 = true.
Proof.
  intros Hincl H2. rewrite forallb_forall in *. auto.
Qed.

(** X8. The result of [supports_picoboot_cmds] depends on the commands as a
    set only: two sequences with the same elements give the same result
    and the same out-parameter, in whatever order and with whatever
    repetitions; a subset of a supported set is supported; and a
    concatenation is tested as its first part followed by its second. *)
Theorem supports_picoboot_cmds_set (m : model_info)
    (cmds1 cmds2 : list picoboot_cmd_id) (s : string) :
  ((forall c, In c cmds1 <-> In c cmds2) ->
   supports_picoboot_cmds m cmds1 s = supports_picoboot_cmds m cmds2 s)
  /\ ((forall c, In c cmds1 -> In c cmds2) ->
      fst (supports_picoboot_cmds m cmds2 s) = true ->
      supports_picoboot_cmds m cmds1 s = (true, s))
  /\ supports_picoboot_cmds m (cmds1 ++ cmds2) s
     = if fst (supports_picoboot_cmds m cmds1 s)
       then supports_picoboot_cmds m cmds2 s
       else (false, name m).
Proof.
  rewrite !supports_picoboot_cmds_forallb, forallb_app.
  split; [| split].
  - intros Hsame.
    destruct (forallb (supports_picoboot_cmd m) cmds1) eqn:H1;
      destruct (forallb (supports_picoboot_cmd m) cmds2) eqn:H2;
      try reflexivity; exfalso.
    + apply (forallb_same_elements _ cmds2 cmds1) in H1;
        [congruence | intros x; apply Hsame].
    + apply (forallb_same_elements _ cmds1 cmds2) in H2;
        [congruence | intros x; apply Hsame].
  - intros Hincl.
    destruct (forallb (supports_picoboot_cmd m) cmds2) eqn:H2;
      [| discriminate].
    intros _.
    rewrite (forallb_same_elements _ cmds1 cmds2 Hincl H2). reflexivity.
  - destruct (forallb (supports_picoboot_cmd m) cmds1); reflexivity.
Qed.

Section CommandTables.

Variable adr : addresses.
Variable fam : family_ids.

Lemma constructed_unknown_name (m : model_info) :
  constructed adr fam m -> chip m = unknown -> name m = "RP-series".
Proof.
  induction 1; try exact IHconstructed; simpl; intros H;
    try discriminate; reflexivity.
Qed.

(** X9. Between the constructed models of the two generations: every
    command of an rp2040 is a command of an rp2350 except
    [PC_VECTORIZE_FLASH], which no rp2350 supports; the commands that only
    an rp2350 supports are [PC_REBOOT2], [PC_GET_INFO], [PC_OTP_READ] and
    [PC_OTP_WRITE]. A constructed model of unknown chip supports no command:
    every non-empty set fails on it with the name ["RP-series"]. *)
Theorem command_sets_by_generation (m40 m50 m0 : model_info) :
  constructed adr fam m40 -> chip m40 = rp2040 ->
  constructed adr fam m50 -> chip m50 = rp2350 ->
  constructed adr fam m0 -> chip m0 = unknown ->
  (forall c,
     supports_picoboot_cmd m40 c = true ->
     c = PC_VECTORIZE_FLASH \/ supports_picoboot_cmd m50 c = true)
  /\ supports_picoboot_cmd m50 PC_VECTORIZE_FLASH = false
  /\ (forall c,
        (supports_picoboot_cmd m50 c = true
         /\ supports_picoboot_cmd m40 c = false) <->
        (c = PC_REBOOT2 \/ c = PC_GET_INFO \/ c = PC_OTP_READ
         \/ c = PC_OTP_WRITE))
  /\ (forall c, supports_picoboot_cmd m0 c = false)
  /\ (forall cmds s,
        cmds <> [] ->
        supports_picoboot_cmds m0 cmds s = (false, "RP-series")).
Proof.
  intros H40 Hc40 H50 Hc50 H0 Hc0.
  pose proof (constructed_cmds adr fam m40 H40) as E40.
  pose proof (constructed_cmds adr fam m50 H50) as E50.
  pose proof (constructed_cmds adr fam m0 H0) as E0.
  rewrite Hc40 in E40. rewrite Hc50 in E50. rewrite Hc0 in E0.
  assert (Hnone : forall c, supports_picoboot_cmd m0 c = false).
  { intros c. unfold supports_picoboot_cmd. rewrite E0. reflexivity. }
  unfold supports_picoboot_cmd. rewrite E40, E50.
  split; [| split; [| split; [| split]]].
  - intros c. destruct c; simpl; intros H; try discriminate;
      try (right; reflexivity). left; reflexivity.
  - reflexivity.
  - intros c. destruct c; simpl; split;
      try (intros [H1 H2]; discriminate);
      try (intros [H | [H | [H | H]]]; discriminate);
      intros _; try (split; reflexivity);
      try (left; reflexivity); try (right; left; reflexivity);
      try (right; right; left; reflexivity);
      right; right; right; reflexivity.
  - exact Hnone.
  - intros cmds s Hne. rewrite supports_picoboot_cmds_forallb.
    rewrite (constructed_unknown_name m0 H0 Hc0).
    destruct cmds as [| c rest]; [contradiction Hne; reflexivity |].
    simpl. rewrite Hnone. reflexivity.
Qed.

End CommandTables.

(** ** Allocation by model_from_family *)

Section Allocation.

Variable adr : addresses.
Variable fam : family_ids.

Lemma model_from_family_known (id : Z) (s : store) :
  known_family fam id = true ->
  exists obj,
    model_from_family adr fam id s = make_shared obj s
    /\ constructed adr fam obj
    /\ (id = RP2040_FAMILY_ID fam ->
        family_id obj = Some (RP2040_FAMILY_ID fam))
    /\ (id <> RP2040_FAMILY_ID fam -> family_id obj = None).
Proof.
  unfold known_family, model_from_family. intros Hk.
  destruct (id =? RP2040_FAMILY_ID fam) eqn:H40.
  - exists (model_rp2040 adr fam). apply Z.eqb_eq in H40.
    split; [reflexivity |]. split; [constructor |].
    split; [reflexivity | intros H; contradiction].
  - simpl in Hk. rewrite Hk. apply Z.eqb_neq in H40.
    exists (model_rp2350 adr).
    split; [reflexivity |]. split; [constructor |].
    split; [intros H; contradiction | reflexivity].
Qed.

Lemma model_from_family_unknown (id : Z) (s : store) :
  known_family fam id = false ->
  model_from_family adr fam id s = (models_unknown s, s).
Proof.
  unfold known_family, model_from_family. intros Hk.
  apply orb_false_iff in Hk. destruct Hk as [-> ->]. reflexivity.
Qed.

Lemma deref_make_shared_old (obj m : model_info) (s : store) (q : model_t) :
  deref q s = Some m -> deref q (snd (make_shared obj s)) = Some m.
Proof.
  destruct q as [| loc]; [discriminate |]. simpl. intros H.
  rewrite nth_error_app1; [exact H |].
  apply nth_error_Some. congruence.
Qed.

(** X10. For a family id that it knows, [model_from_family] allocates: the
    pointer returned is a location that held no object before, it now
    holds a constructed object, every object of the store is still where
    it was, and the two static pointers are untouched; a second call with
    a known id returns another pointer. The new object records the family
    id only for the RP2040: for an id of the RP2350 range [_family_id] is
    left unset. *)
Theorem model_from_family_allocates (id id2 : Z) (s : store) :
  known_family fam id = true ->
  let p := fst (model_from_family adr fam id s) in
  let s' := snd (model_from_family adr fam id s) in
  deref p s = None
  /\ (exists obj,
        deref p s' = Some obj /\ constructed adr fam obj
        /\ (id = RP2040_FAMILY_ID fam ->
            family_id obj = Some (RP2040_FAMILY_ID fam))
        /\ (id <> RP2040_FAMILY_ID fam -> family_id obj = None))
  /\ (forall q m, deref q s = Some m -> deref q s' = Some m)
  /\ List.length (heap s') = S (List.length (heap s))
  /\ models_unknown s' = models_unknown s
  /\ models_largest s' = models_largest s
  /\ (known_family fam id2 = true ->
      fst (model_from_family adr fam id2 s') <> p).
Proof.
  intros Hk p s'. subst p s'.
  destruct (model_from_family_known id s Hk) as (obj & -> & Hc & H40 & Hn).
  split; [| split; [| split; [| split; [| split; [| split]]]]].
  - simpl. apply nth_error_None. apply Nat.le_refl.
  - exists obj. split; [apply deref_make_shared |].
    split; [exact Hc |]. split; assumption.
  - intros q m. apply deref_make_shared_old.
  - simpl. rewrite length_app. simpl. apply Nat.add_1_r.
  - reflexivity.
  - reflexivity.
  - intros Hk2.
    destruct (model_from_family_known id2 (snd (make_shared obj s)) Hk2)
      as (obj2 & -> & _).
    simpl. rewrite length_app. simpl. intros H. injection H as H. lia.
Qed.

(** The pointers that a run returns for known ids are locations allocated
    during the run. *)
Lemma resolve_all_known_bounds (ids : list Z) :
  forall (s : store) (i : nat) (id : Z) (p : model_t),
    nth_error ids i = Some id ->
    known_family fam id = true ->
    nth_error (fst (resolve_all adr fam ids s)) i = Some p ->
    exists loc,
      p = shared loc
      /\ (List.length (heap s) <= loc
          < List.length (heap (snd (resolve_all adr fam ids s))))%nat.
Proof.
  induction ids as [| id0 rest IH]; intros s i id p Hid Hk Hp.
  - destruct i; discriminate.
  - simpl in Hp |- *.
    destruct (model_from_family adr fam id0 s) as [p0 s1] eqn:Hcall.
    destruct (resolve_all adr fam rest s1) as [ps s2] eqn:Hrest.
    assert (Hgrow : (List.length (heap s1) <= List.length (heap s2))%nat).
    { clear - Hrest. revert s1 ps s2 Hrest.
      induction rest as [| a rest IHr]; intros s1 ps s2 Hrest.
      - injection Hrest as _ <-. apply Nat.le_refl.
      - simpl in Hrest.
        destruct (model_from_family adr fam a s1) as [pa sa] eqn:Ha.
        destruct (resolve_all adr fam rest sa) as [pr sr] eqn:Hr.
        injection Hrest as _ <-.
        apply Nat.le_trans with (List.length (heap sa));
          [| exact (IHr _ _ _ Hr)].
        destruct (known_family fam a) eqn:Hka.
        + destruct (model_from_family_known a s1 Hka) as (o & Ho & _).
          rewrite Ho in Ha. injection Ha as _ <-. simpl.
          rewrite length_app. simpl. lia.
        + rewrite (model_from_family_unknown a s1 Hka) in Ha.
          injection Ha as _ <-. apply Nat.le_refl. }
    simpl in Hp |- *. destruct i as [| i]; simpl in Hid, Hp.
    + injection Hid as ->. injection Hp as <-.
      destruct (model_from_family_known id s Hk) as (o & Ho & _).
      rewrite Ho in Hcall. injection Hcall as <- <-.
      eexists. split; [reflexivity |].
      simpl in Hgrow. rewrite length_app in Hgrow. simpl in Hgrow. lia.
    + assert (Hp' : nth_error (fst (resolve_all adr fam rest s1)) i
                    = Some p) by (rewrite Hrest; exact Hp).
      destruct (IH s1 i id p Hid Hk Hp') as (loc & -> & Hlo & Hhi).
      rewrite Hrest in Hhi. simpl in Hhi.
      exists loc. split; [reflexivity |]. split; [| exact Hhi].
      apply Nat.le_trans with (List.length (heap s1)); [| exact Hlo].
      destruct (known_family fam id0) eqn:Hk0.
      * destruct (model_from_family_known id0 s Hk0) as (o & Ho & _).
        rewrite Ho in Hcall. injection Hcall as _ <-. simpl.
        rewrite length_app. simpl. lia.
      * rewrite (model_from_family_unknown id0 s Hk0) in Hcall.
        injection Hcall as _ <-. apply Nat.le_refl.
Qed.

(** X11. In a run of calls of [model_from_family], one pointer is
    returned per call, and two calls with known family ids never return
    the same pointer: each known id gets an object of its own, while the
    unknown ids all share [models::unknown]. *)
Theorem resolve_all_distinct (ids : list Z) (s : store) :
  List.length (fst (resolve_all adr fam ids s)) = List.length ids
  /\ (forall i j id_i id_j p_i p_j,
        (i < j)%nat ->
        nth_error ids i = Some id_i -> nth_error ids j = Some id_j ->
        known_family fam id_i = true -> known_family fam id_j = true ->
        nth_error (fst (resolve_all adr fam ids s)) i = Some p_i ->
        nth_error (fst (resolve_all adr fam ids s)) j = Some p_j ->
        p_i <> p_j).
Proof.
  split.
  - revert s. induction ids as [| id0 rest IH]; intros s; [reflexivity |].
    simpl. destruct (model_from_family adr fam id0 s) as [p0 s1].
    specialize (IH s1).
    destruct (resolve_all adr fam rest s1) as [ps s2]. simpl in *.
    rewrite IH. reflexivity.
  - revert s. induction ids as [| id0 rest IH];
      intros s i j id_i id_j p_i p_j Hlt Hi Hj Hki Hkj Hpi Hpj.
    + destruct i; discriminate.
    + simpl in Hpi, Hpj.
      destruct (model_from_family adr fam id0 s) as [p0 s1] eqn:Hcall.
      destruct (resolve_all adr fam rest s1) as [ps s2] eqn:Hrest.
      simpl in Hpi, Hpj.
      destruct j as [| j]; [lia |]. simpl in Hj, Hpj.
      assert (Hpj' : nth_error (fst (resolve_all adr fam rest s1)) j
                     = Some p_j) by (rewrite Hrest; exact Hpj).
      destruct i as [| i]; simpl in Hi, Hpi.
      * injection Hi as ->. injection Hpi as <-.
        destruct (model_from_family_known id_i s Hki) as (o & Ho & _).
        rewrite Ho in Hcall. injection Hcall as <- <-.
        destruct (resolve_all_known_bounds rest _ j id_j p_j Hj Hkj Hpj')
          as (loc & -> & Hlo & _).
        simpl in Hlo. rewrite length_app in Hlo. simpl in Hlo.
        intros H. injection H as H. lia.
      * apply (IH s1 i j id_i id_j p_i p_j); try assumption; try lia.
        rewrite Hrest. exact Hpi.
Qed.

End Allocation.

(** ** Further properties of the protected-ROM test *)

(** X12. A read split in two gives the same answer as the whole: for a
    model whose protected range is in order, a 32-bit [addr] and two
    non-empty sizes whose sum stays inside the 32-bit range,
    [contains_unreadable_rom] on the whole range is the disjunction of
    [contains_unreadable_rom] on the two parts. *)
Theorem contains_unreadable_rom_split (m : model_info) (addr s1 s2 : Z) :
  is_u32 addr -> 0 < s1 -> 0 < s2 -> addr + s1 + s2 < 2 ^ 32 ->
  unreadable_rom_start m <= unreadable_rom_end m ->
  contains_unreadable_rom addr (s1 + s2) m
  = contains_unreadable_rom addr s1 m
    || contains_unreadable_rom (addr + s1) s2 m.
Proof.
  intros Ha H1 H2 Hsum Hord. unfold is_u32 in Ha.
  apply unreadable_rom_in_order in Hord.
  change (2 ^ 32) with 4294967296 in *.
  apply eq_true_iff_eq.
  rewrite orb_true_iff, !contains_unreadable_rom_iff.
  rewrite !u32_small
    by (change (2 ^ 32) with 4294967296; lia).
  lia.
Qed.

(** X13. With [size = 0] the test is a point test on the closed range: for
    a model whose protected range is in order and a 32-bit [addr],
    [contains_unreadable_rom addr 0] is true exactly when the protected
    range is not empty and [unreadable_rom_start <= addr <=
    unreadable_rom_end]; so it is true at [unreadable_rom_end] itself, one
    past the last protected byte, when that is a 32-bit address and the
    range is not empty. *)
Theorem contains_unreadable_rom_empty_size (m : model_info) (addr : Z) :
  is_u32 addr ->
  unreadable_rom_start m <= unreadable_rom_end m ->
  (contains_unreadable_rom addr 0 m = true <->
   unreadable_rom_start m < unreadable_rom_end m
   /\ unreadable_rom_start m <= addr <= unreadable_rom_end m)
  /\ (is_u32 (unreadable_rom_end m) ->
      unreadable_rom_start m < unreadable_rom_end m ->
      contains_unreadable_rom (unreadable_rom_end m) 0 m = true).
Proof.
  intros Ha Hord. unfold is_u32 in Ha.
  change (2 ^ 32) with 4294967296 in *.
  split.
  - rewrite contains_unreadable_rom_iff, Z.add_0_r.
    rewrite u32_small by (change (2 ^ 32) with 4294967296; lia). lia.
  - intros Hend Hlt. unfold is_u32 in Hend.
    change (2 ^ 32) with 4294967296 in Hend.
    apply contains_unreadable_rom_iff. rewrite Z.add_0_r.
    rewrite u32_small by (change (2 ^ 32) with 4294967296; lia). lia.
Qed.

(** X14. An rp2350 model built with a ROM shorter than 512 bytes has a
    protected range out of order: [rom_end - 0x200] wraps, so
    [unreadable_rom_start = rom_end + 2^32 - 0x200] lies above
    [unreadable_rom_end], and [contains_unreadable_rom] is then true
    exactly for the ranges that start below it and whose 32-bit end lies
    above [rom_end]. *)
Theorem short_rom_unreadable_range (m : model_info) (addr size : Z) :
  is_model_rp2350 (dyn m) = true ->
  0 <= rom_end m < 0x200 ->
  unreadable_rom_start m = rom_end m + 2 ^ 32 - 0x200
  /\ unreadable_rom_end m < unreadable_rom_start m
  /\ (contains_unreadable_rom addr size m = true <->
      addr < unreadable_rom_start m
      /\ rom_end m < u32 (addr + size)).
Proof.
  intros Hc Hr.
  assert (Hs : unreadable_rom_start m = rom_end m + 2 ^ 32 - 0x200).
  { unfold unreadable_rom_start. rewrite Hc.
    change (2 ^ 32) with 4294967296. u32_elim. lia. }
  assert (He : unreadable_rom_end m = rom_end m).
  { unfold unreadable_rom_end. rewrite Hc. reflexivity. }
  split; [exact Hs |].
  rewrite contains_unreadable_rom_iff, Hs, He.
  change (2 ^ 32) with 4294967296.
  pose proof (u32_range (addr + size)). lia.
Qed.

(** ** The further properties at concrete models *)

Lemma get_memory_type_sound_witness :
  exists k,
    result (get_memory_type rp_addresses rp_error_not_possible 0x30000000
              (model_rp2350 rp_addresses)) = Ok k
    /\ ~ rom_start rp_addresses (model_rp2350 rp_addresses)
         <= 0x30000000 <= rom_end (model_rp2350 rp_addresses).
Proof.
  destruct (get_memory_type_sound rp_addresses rp_error_not_possible
              (model_rp2350 rp_addresses) 0x30000000)
    as (k & Hres & _ & _ & _ & Hinv).
  exists k. split; [exact Hres |].
  assert (Hk : Ok k = Ok invalid) by (rewrite <- Hres; reflexivity).
  apply Ok_inj in Hk.
  destruct (Hinv Hk) as (Hrom & _). exact Hrom.
Defined.

Lemma generic_most_permissive_witness :
  exists k',
    result (get_memory_type rp_addresses rp_error_not_possible 0x15000010
              model_rp_generic) = Ok k'
    /\ declared_kind k'.
Proof.
  assert (Hk : declared_kind xip_sram) by (right; right; reflexivity).
  destruct (generic_most_permissive rp_addresses rp_error_not_possible
              (model_rp2040 rp_addresses rp_family_ids) model_rp_generic
              0x15000010 xip_sram eq_refl eq_refl eq_refl Hk)
    as (k' & Hres & Hdecl & _).
  exists k'. split; assumption.
Defined.

Lemma constructed_models_invariant_witness :
  name (set_chip_revision rp2350_a2
          (model_rp2350_at Cmodel_rp2350 0x10000))
  = "RP2350(64k)".
Proof.
  destruct (constructed_models_invariant rp_addresses rp_family_ids
              (set_chip_revision rp2350_a2
                 (model_rp2350_at Cmodel_rp2350 0x10000))
              (constructed_set_chip_revision _ _ rp2350_a2 _
                 (constructed_rp2350 _ _ 0x10000)))
    as (_ & _ & Hname & _).
  exact Hname.
Defined.

Lemma capabilities_follow_chip_witness :
  rom_table_version rp_error_not_possible model_rp_generic
  = fail rp_error_not_possible "unknown rom table version"
  /\ flash_start rp_addresses rp_error_not_possible model_rp_generic
     = ret 0x10000000.
Proof.
  destruct (capabilities_follow_chip rp_addresses rp_family_ids
              rp_error_not_possible model_rp_generic
              (constructed_rp_generic _ _))
    as (_ & _ & _ & _ & _ & _ & _ & _ & Hgen).
  exact (Hgen eq_refl).
Defined.

Lemma address_ranges_classified_witness :
  exists k,
    result (get_memory_type rp_addresses rp_error_not_possible 0x21000004
              (model_rp2040 rp_addresses rp_family_ids)) = Ok k
    /\ k <> invalid.
Proof.
  assert (Hin : In (Build_address_range 0x21000000 0x21040000 NO_CONTENTS)
                  [ Build_address_range 0x10000000 0x11000000 CONTENTS;
                    Build_address_range 0x20000000 0x20042000 NO_CONTENTS;
                    Build_address_range 0x15000000 0x15004000 NO_CONTENTS;
                    Build_address_range 0x21000000 0x21040000 NO_CONTENTS ]).
  { right. right. right. left. reflexivity. }
  assert (Haddr : in_address_range
                    (Build_address_range 0x21000000 0x21040000 NO_CONTENTS)
                    0x21000004).
  { unfold in_address_range. simpl. lia. }
  destruct (address_ranges_classified rp_addresses rp_family_ids
              rp_error_not_possible
              right_to_left right_to_left right_to_left
              (model_rp2040 rp_addresses rp_family_ids) _ _ 0x21000004
              (constructed_rp2040 _ _) (or_introl eq_refl) Hin Haddr)
    as (k & Hres & Hinv & _).
  exists k. split; assumption.
Defined.

Lemma unreadable_rom_data_follows_revision_witness :
  exists label d,
    revision_name (set_chip_revision rp2040_b2
                     (model_rp2350 rp_addresses)) = Some label
    /\ unreadable_rom_data (set_chip_revision rp2040_b2
                              (model_rp2350 rp_addresses)) = Some d
    /\ (d = nullptr <-> label = "Unknown").
Proof.
  destruct (unreadable_rom_data_follows_revision
              (set_chip_revision rp2040_b2 (model_rp2350 rp_addresses))
              rp2040_b2 eq_refl)
    as ((label & d & Hl & Hd & _ & Hiff & _) & _).
  exists label, d. split; [exact Hl |]. split; [exact Hd |].
  exact (Hiff eq_refl).
Defined.

Lemma setters_keep_queries_witness :
  get_memory_type rp_addresses rp_error_not_possible 0x10000000
    (set_family_id 7 (model_rp2350 rp_addresses))
  = get_memory_type rp_addresses rp_error_not_possible 0x10000000
      (model_rp2350 rp_addresses).
Proof.
  destruct (setters_keep_queries rp_addresses rp_error_not_possible
              (model_rp2350 rp_addresses) rp2350_a2 7 0x10000000 4
              [PC_READ] "none") as (Hkeep & _).
  destruct (Hkeep (set_family_id 7 (model_rp2350 rp_addresses))
              (or_intror eq_refl)) as (Hmem & _).
  exact Hmem.
Defined.

Lemma supports_picoboot_cmds_set_witness :
  supports_picoboot_cmds (model_rp2040 rp_addresses rp_family_ids)
    [PC_WRITE; PC_READ; PC_WRITE] "none"
  = supports_picoboot_cmds (model_rp2040 rp_addresses rp_family_ids)
      [PC_READ; PC_WRITE] "none".
Proof.
  destruct (supports_picoboot_cmds_set
              (model_rp2040 rp_addresses rp_family_ids)
              [PC_WRITE; PC_READ; PC_WRITE] [PC_READ; PC_WRITE] "none")
    as (Hsame & _).
  apply Hsame. intros c. simpl. tauto.
Defined.

Lemma command_sets_by_generation_witness :
  supports_picoboot_cmds model_rp_generic [PC_READ] "none"
  = (false, "RP-series").
Proof.
  destruct (command_sets_by_generation rp_addresses rp_family_ids
              (model_rp2040 rp_addresses rp_family_ids)
              (model_rp2350 rp_addresses) model_rp_generic
              (constructed_rp2040 _ _) eq_refl
              (constructed_rp2350 _ _ _) eq_refl
              (constructed_rp_generic _ _) eq_refl)
    as (_ & _ & _ & _ & Hnone).
  apply Hnone. discriminate.
Defined.

Lemma model_from_family_allocates_witness :
  deref (fst (model_from_family rp_addresses rp_family_ids 0xe48bff59
                initial_store)) initial_store = None
  /\ fst (model_from_family rp_addresses rp_family_ids 0xe48bff56
            (snd (model_from_family rp_addresses rp_family_ids 0xe48bff59
                    initial_store)))
     <> fst (model_from_family rp_addresses rp_family_ids 0xe48bff59
               initial_store).
Proof.
  destruct (model_from_family_allocates rp_addresses rp_family_ids
              0xe48bff59 0xe48bff56 initial_store eq_refl)
    as (Hfresh & _ & _ & _ & _ & _ & Hnext).
  split; [exact Hfresh | exact (Hnext eq_refl)].
Defined.

Lemma resolve_all_distinct_witness :
  nth_error (fst (resolve_all rp_addresses rp_family_ids
                    [0xe48bff5a; 0; 0xe48bff5a] initial_store)) 0
  = Some (shared 2)
  /\ nth_error (fst (resolve_all rp_addresses rp_family_ids
                       [0xe48bff5a; 0; 0xe48bff5a] initial_store)) 2
     = Some (shared 3)
  /\ shared 2 <> shared 3.
Proof.
  split; [reflexivity |]. split; [reflexivity |].
  destruct (resolve_all_distinct rp_addresses rp_family_ids
              [0xe48bff5a; 0; 0xe48bff5a] initial_store) as (_ & Hdiff).
  apply (Hdiff 0%nat 2%nat 0xe48bff5a 0xe48bff5a (shared 2) (shared 3));
    try reflexivity. lia.
Defined.

Lemma contains_unreadable_rom_split_witness :
  contains_unreadable_rom 0x7d00 (0x80 + 0x100)
    (model_rp2350 rp_addresses)
  = contains_unreadable_rom 0x7d00 0x80 (model_rp2350 rp_addresses)
    || contains_unreadable_rom (0x7d00 + 0x80) 0x100
         (model_rp2350 rp_addresses).
Proof.
  apply (contains_unreadable_rom_split (model_rp2350 rp_addresses)
           0x7d00 0x80 0x100); by_computation.
Defined.

Lemma contains_unreadable_rom_empty_size_witness :
  contains_unreadable_rom 0x8000 0 (model_rp2350 rp_addresses) = true.
Proof.
  assert (Ha : is_u32 0x8000) by by_computation.
  assert (Hord : unreadable_rom_start (model_rp2350 rp_addresses)
                 <= unreadable_rom_end (model_rp2350 rp_addresses))
    by by_computation.
  destruct (contains_unreadable_rom_empty_size (model_rp2350 rp_addresses)
              0x8000 Ha Hord) as (_ & Hend).
  apply Hend; by_computation.
Defined.

Lemma short_rom_unreadable_range_witness :
  unreadable_rom_start (model_rp2350_at Cmodel_rp2350 0x100)
  = 0x100 + 2 ^ 32 - 0x200
  /\ (contains_unreadable_rom 0 0x200
        (model_rp2350_at Cmodel_rp2350 0x100) = true <->
      0 < unreadable_rom_start (model_rp2350_at Cmodel_rp2350 0x100)
      /\ rom_end (model_rp2350_at Cmodel_rp2350 0x100) < u32 (0 + 0x200)).
Proof.
  assert (Hr : 0 <= rom_end (model_rp2350_at Cmodel_rp2350 0x100) < 0x200)
    by by_computation.
  destruct (short_rom_unreadable_range
              (model_rp2350_at Cmodel_rp2350 0x100) 0 0x200 eq_refl Hr)
    as (Hs & _ & Hiff).
  split; [exact Hs | exact Hiff].
Defined.
